(** * zigbee2mqtt: the Configure and Frontend extensions

    A shallow embedding of [lib/extension/configure.ts] and of the
    WebSocket side of [lib/extension/frontend.ts], and the properties of
    the event-driven orchestration layer proved on it.

    - [JS]        : the fragment of the JavaScript runtime the two
                    extensions rely on (numbers, JSON values, [JSON.parse],
                    [String(v)], the stable stringifier).
    - [Utils]     : two helpers of [lib/util/utils].
    - [Configure] : the per-device configuration state machine, as an
                    explicit state-passing model whose [await] points
                    are the steps of a labelled transition system.
    - [Frontend]  : the WebSocket upgrade authorisation, the replay on
                    connection and the client-to-bus bridge.

    Asynchrony.  The runtime is single threaded: a handler runs without
    interruption up to its next [await].  Every handler is therefore
    split at its [await]s into atomic segments, and an execution of the
    system is a sequence of such segments, in any order the scheduler
    and the environment may produce.

    Collaborators.  The device network, the bus transport, the logger
    and the event bus are outside this development.  What a handler
    asks of them is recorded as an effect; what they answer (the entity
    an identifier resolves to, the result of a configuration routine)
    is an input of the model.  Apart from the configuration routine,
    their calls are taken not to throw. *)

From Stdlib Require Import ZArith NArith String Ascii List DecimalString Lia.
From stdpp Require Import gmap strings list.

Open Scope string_scope.

(* ===================================================================== *)
(** * The JavaScript fragment *)
(* ===================================================================== *)

Module JS.

(** The double quote and the backslash, by character code. *)
Definition dquote : ascii := "034"%char.
Definition backslash : ascii := "092"%char.

(** [bt s] is [s] with every backtick replaced by a double quote: JSON
    texts are written with backticks in this file. *)
Fixpoint bt (s : string) : string :=
  match s with
  | EmptyString => EmptyString
  | String c r => String (if Ascii.eqb c "096"%char then dquote else c) (bt r)
  end.

(** ** Numbers

    A JavaScript number is a double-precision float.  The numbers that
    [JSON.parse] can return are the finite doubles and, for a literal
    beyond the largest of them, an infinity.  [Double m e] is the double
    of value [m * 2^e], with [m] odd, and [Double 0 0] is zero; the
    negative zero prints as zero and is not told apart from it. *)
Inductive Number : Type :=
| Double (m e : Z)
| Inf (negative : bool).

Definition Number_eqb (x y : Number) : bool :=
  match x, y with
  | Double m e, Double m' e' => (m =? m')%Z && (e =? e')%Z
  | Inf a, Inf b => Bool.eqb a b
  | _, _ => false
  end.

Definition negate (x : Number) : Number :=
  match x with
  | Double m e => Double (- m) e
  | Inf b => Inf (negb b)
  end.

(** [m * 2^e] with the factors two of [m] moved to the exponent. *)
Fixpoint odd_part (fuel : nat) (m e : Z) : Z * Z :=
  match fuel with
  | O => (m, e)
  | S fuel' => if Z.even m then odd_part fuel' (m / 2) (e + 1) else (m, e)
  end.

(** The double nearest to the fraction [N / D], for [0 <= N] and
    [0 < D]: 53 significant bits, the exponent of the last bit at least
    -1074, a tie rounded to the even significand, and past the largest
    double an infinity. *)
Definition round_ratio (N D : Z) : Number :=
  if (N =? 0)%Z then Double 0 0 else
  let l := (Z.log2 N - Z.log2 D)%Z in
  let e0 :=
    if (if (0 <=? l)%Z then (D * 2 ^ l <=? N)%Z else (D <=? N * 2 ^ (- l))%Z)
    then l else (l - 1)%Z in
  let e := Z.max (e0 - 52) (-1074) in
  let num := if (0 <=? e)%Z then N else (N * 2 ^ (- e))%Z in
  let den := if (0 <=? e)%Z then (D * 2 ^ e)%Z else D in
  let q := (num / den)%Z in
  let r := (num mod den)%Z in
  let q' := if (den <? 2 * r)%Z || ((2 * r =? den)%Z && Z.odd q)
            then (q + 1)%Z else q in
  if (q' =? 0)%Z then Double 0 0
  else if (1024 <=? Z.log2 q' + e)%Z then Inf false
  else let (m, e') := odd_part 64 q' e in Double m e'.

(** The double nearest to [d * 10^k], for [0 <= d]. *)
Definition decimal (d k : Z) : Number :=
  if (0 <=? k)%Z then round_ratio (d * 10 ^ k) 1 else round_ratio d (10 ^ (- k)).

(** The double nearest to an integer. *)
Definition Number_of_Z (n : Z) : Number :=
  if (n <? 0)%Z then negate (decimal (- n) 0) else decimal n 0.

(** ** JSON values

    What [JSON.parse] returns.  A string is given by its bytes: UTF-8,
    with a surrogate that has no partner written as the three bytes of
    its own value.  An object is the list of its own properties, each
    key once.  [undefined] is not a JSON value: a possibly undefined
    value is an [option JSON]. *)
#[local] Set Warnings "-register-all".
Inductive JSON : Type :=
| JNull
| JBool (b : bool)
| JNum (x : Number)
| JStr (s : string)
| JArr (elements : list JSON)
| JObj (properties : list (string * JSON)).

(** Errors that can be thrown. *)
Inductive JSError : Type :=
| SyntaxError (message : string)
| TypeError (message : string)
| Error (message stack : string).

Definition error_message (e : JSError) : string :=
  match e with
  | SyntaxError m | TypeError m | Error m _ => m
  end.

Definition error_stack (e : JSError) : string :=
  match e with
  | SyntaxError m => "SyntaxError: " ++ m
  | TypeError m => "TypeError: " ++ m
  | Error _ s => s
  end.

(** [typeof v === "object"]: true of objects, arrays and [null]. *)
Definition typeof_object (v : JSON) : bool :=
  match v with
  | JNull | JArr _ | JObj _ => true
  | _ => false
  end.

(** Own-property lookup [o[k]] in a property list. *)
Fixpoint assoc (k : string) (ps : list (string * JSON)) : option JSON :=
  match ps with
  | [] => None
  | (k', v) :: r => if String.eqb k k' then Some v else assoc k r
  end.

(** [o[k] = v] on a property list: an existing key keeps its place. *)
Fixpoint assoc_set (k : string) (v : JSON) (ps : list (string * JSON))
  : list (string * JSON) :=
  match ps with
  | [] => [(k, v)]
  | (k', v') :: r =>
      if String.eqb k k' then (k, v) :: r else (k', v') :: assoc_set k v r
  end.

(** Reading a property [v.k] for [k] one of [id], [topic], [payload]
    (none of which is defined on a prototype): [inl e] when the read
    throws ([v] is [null]), else [inr] of the value or [undefined]. *)
Definition get_property (v : JSON) (k : string) : JSError + option JSON :=
  match v with
  | JNull =>
      inl (TypeError ("Cannot read properties of null (reading '" ++ k ++ "')"))
  | JObj ps => inr (assoc k ps)
  | _ => inr None
  end.

(** [const {k1, k2} = v], for [k1], [k2] among the same keys: throws
    when [v] is [null]. *)
Definition destructure (v : JSON) (k1 k2 : string)
  : JSError + (option JSON * option JSON) :=
  match v with
  | JNull =>
      inl (TypeError ("Cannot destructure property '" ++ k1
                      ++ "' of 'JSON.parse(...)' as it is null."))
  | JObj ps => inr (assoc k1 ps, assoc k2 ps)
  | _ => inr (None, None)
  end.

(** ** Printing *)

Definition Z_to_string (n : Z) : string := NilZero.string_of_int (Z.to_int n).

Fixpoint join (sep : string) (l : list string) : string :=
  match l with
  | [] => ""
  | [x] => x
  | x :: r => x ++ sep ++ join sep r
  end.

(** The fraction [N / D] divided by [10^k]. *)
Definition shift10 (N D k : Z) : Z * Z :=
  if (0 <=? k)%Z then (N, (D * 10 ^ k)%Z) else ((N * 10 ^ (- k))%Z, D).

(** The least [n], from a start below it, with [N / D < 10^n]. *)
Fixpoint magnitude (fuel : nat) (N D n : Z) : Z :=
  match fuel with
  | O => n
  | S fuel' =>
      let (a, b) := shift10 N D n in
      if (a <? b)%Z then n else magnitude fuel' N D (n + 1)
  end.

(** The digits of [Number::toString]: for the double [x] of value
    [N / D], with [10^(n-1) <= N / D < 10^n], the integer [s] of the
    fewest digits [k] such that [s * 10^(n-k)] rounds to [x]; of two
    such, the nearer to [x], and the even one when they are as near.
    When the one chosen is [10^k], it is returned as [1] with [n + 1]. *)
Fixpoint shortest (fuel : nat) (x : Number) (N D n k : Z) : Z * Z :=
  let (a, b) := shift10 N D (n - k) in
  let lo := (a / b)%Z in
  let r := (a mod b)%Z in
  let hi := (lo + 1)%Z in
  let ok_lo := Number_eqb (decimal lo (n - k)) x in
  let ok_hi := Number_eqb (decimal hi (n - k)) x in
  let up := if (hi =? 10 ^ k)%Z then (1, n + 1)%Z else (hi, n) in
  match fuel with
  | O => (lo, n)
  | S fuel' =>
      if ok_lo && ok_hi then
        if (2 * r <? b)%Z || ((2 * r =? b)%Z && Z.even lo) then (lo, n) else up
      else if ok_lo then (lo, n)
      else if ok_hi then up
      else shortest fuel' x N D n (k + 1)
  end.

Fixpoint zeros (n : nat) : string :=
  match n with
  | O => ""
  | S n' => String "0" (zeros n')
  end.

(** [Number::toString(x)] in radix 10: with [k] digits [s] and the
    decimal point after the [n]th, plain digits when [k <= n <= 21], a
    point inside the digits when [0 < n <= 21], leading zeros when
    [-6 < n <= 0], and the exponent form otherwise. *)
Definition Number_toString (x : Number) : string :=
  match x with
  | Inf false => "Infinity"
  | Inf true => "-Infinity"
  | Double m e =>
      if (m =? 0)%Z then "0" else
      let sign := if (m <? 0)%Z then "-" else "" in
      let (N, D) := if (0 <=? e)%Z then ((Z.abs m * 2 ^ e)%Z, 1%Z)
                    else (Z.abs m, (2 ^ (- e))%Z) in
      let n0 := magnitude 6 N D (((Z.log2 N - Z.log2 D) * 30103) / 100000 - 1) in
      let (s, n) := shortest 17 (Double (Z.abs m) e) N D n0 1 in
      let ds := Z_to_string s in
      let k := Z.of_nat (String.length ds) in
      let exponent :=
        (if (0 <? n - 1)%Z then "e+" else "e-") ++ Z_to_string (Z.abs (n - 1)) in
      sign ++
      (if (k <=? n)%Z && (n <=? 21)%Z then ds ++ zeros (Z.to_nat (n - k))
       else if (0 <? n)%Z && (n <=? 21)%Z then
         String.substring 0 (Z.to_nat n) ds ++ "."
         ++ String.substring (Z.to_nat n) (Z.to_nat (k - n)) ds
       else if (-6 <? n)%Z && (n <=? 0)%Z then "0." ++ zeros (Z.to_nat (- n)) ++ ds
       else if (k =? 1)%Z then ds ++ exponent
       else String.substring 0 1 ds ++ "."
            ++ String.substring 1 (Z.to_nat (k - 1)) ds ++ exponent)
  end.

(** [String(v)], the conversion a template literal applies.  An object
    is converted by its [toString] method: the one of [Object.prototype]
    unless the object has a property of that name of its own, which,
    coming from [JSON.parse], is not a function; the conversion then
    falls back on [valueOf], which is not a function either or returns
    the object, and throws.  An array is converted by joining the
    conversions of its elements. *)
Fixpoint ToString (v : JSON) : JSError + string :=
  match v with
  | JNull => inr "null"
  | JBool true => inr "true"
  | JBool false => inr "false"
  | JNum x => inr (Number_toString x)
  | JStr s => inr s
  | JArr l =>
      let elements :=
        fix elements (l : list JSON) : JSError + list string :=
          match l with
          | [] => inr []
          | x :: r =>
              match (match x with JNull => inr "" | _ => ToString x end) with
              | inl e => inl e
              | inr t =>
                  match elements r with
                  | inl e => inl e
                  | inr ts => inr (t :: ts)
                  end
              end
          end in
      match elements l with
      | inl e => inl e
      | inr ts => inr (join "," ts)
      end
  | JObj ps =>
      match assoc "toString" ps with
      | Some _ => inl (TypeError "Cannot convert object to primitive value")
      | None => inr "[object Object]"
      end
  end.

Definition ToString_opt (v : option JSON) : JSError + string :=
  match v with
  | Some x => ToString x
  | None => inr "undefined"
  end.

Definition hex_digit (n : nat) : ascii :=
  ascii_of_nat (if (n <? 10)%nat then 48 + n else 87 + n).

(** The quoted form of a string, as [JSON.stringify] writes it: the
    quote, the backslash and the control characters escaped, and a
    surrogate without partner (three bytes, the first 237 and the second
    in 160..191) written as the escape of its code unit. *)
Fixpoint quote_body (s : string) : string :=
  match s with
  | EmptyString => EmptyString
  | String c r =>
      let n := nat_of_ascii c in
      let esc x := String backslash (String x (quote_body r)) in
      let plain :=
        if Ascii.eqb c dquote then esc dquote
        else if Ascii.eqb c backslash then esc backslash
        else if (n =? 8)%nat then esc "b"%char
        else if (n =? 9)%nat then esc "t"%char
        else if (n =? 10)%nat then esc "n"%char
        else if (n =? 12)%nat then esc "f"%char
        else if (n =? 13)%nat then esc "r"%char
        else if (n <? 32)%nat then
          String backslash ("u00" ++
            String (hex_digit (n / 16)) (String (hex_digit (n mod 16)) (quote_body r)))
        else String c (quote_body r) in
      match r with
      | String d (String e r') =>
          let x := nat_of_ascii d in
          let y := nat_of_ascii e in
          if (n =? 237)%nat && (160 <=? x)%nat && (x <=? 191)%nat
             && (128 <=? y)%nat && (y <=? 191)%nat
          then
            String backslash ("ud" ++
              String (hex_digit ((x - 128) / 4))
                (String (hex_digit (4 * ((x - 128) mod 4) + (y - 128) / 16))
                   (String (hex_digit ((y - 128) mod 16)) (quote_body r'))))
          else plain
      | _ => plain
      end
  end.

Definition quote (s : string) : string :=
  String dquote (quote_body s ++ String dquote EmptyString).

(** The UTF-16 code units of a string given by its bytes: one unit for
    a sequence of one, two or three bytes, the two surrogates of the
    code point for a sequence of four. *)
Fixpoint code_units (s : string) : list N :=
  let b (c : ascii) := N_of_ascii c in
  match s with
  | EmptyString => []
  | String c1 r1 =>
      let stray := b c1 :: code_units r1 in
      if (b c1 <? 192)%N then stray
      else
        match r1 with
        | EmptyString => stray
        | String c2 r2 =>
            if (b c1 <? 224)%N then
              ((b c1 mod 32) * 64 + b c2 mod 64)%N :: code_units r2
            else
              match r2 with
              | EmptyString => stray
              | String c3 r3 =>
                  if (b c1 <? 240)%N then
                    ((b c1 mod 16) * 4096 + (b c2 mod 64) * 64 + b c3 mod 64)%N
                      :: code_units r3
                  else
                    match r3 with
                    | EmptyString => stray
                    | String c4 r4 =>
                        let p := ((b c1 mod 8) * 262144 + (b c2 mod 64) * 4096
                                  + (b c3 mod 64) * 64 + b c4 mod 64 - 65536)%N in
                        (55296 + p / 1024)%N :: (56320 + p mod 1024)%N
                          :: code_units r4
                    end
              end
        end
  end.

(** Well-formed UTF-8: the bytes of a sequence of code points, none of
    them a surrogate, each in its shortest form.  These are the byte
    strings that [Buffer.toString] decodes without a replacement
    character, and that [Buffer.from] gives back. *)
Fixpoint well_formed (s : string) : bool :=
  let b (c : ascii) := N_of_ascii c in
  let tail (c : ascii) := (128 <=? b c)%N && (b c <=? 191)%N in
  match s with
  | EmptyString => true
  | String c1 r1 =>
      if (b c1 <? 128)%N then well_formed r1
      else
        match r1 with
        | EmptyString => false
        | String c2 r2 =>
            if (194 <=? b c1)%N && (b c1 <=? 223)%N
            then tail c2 && well_formed r2
            else
              match r2 with
              | EmptyString => false
              | String c3 r3 =>
                  if (224 <=? b c1)%N && (b c1 <=? 239)%N then
                    tail c2 && tail c3
                    && (if (b c1 =? 224)%N then (160 <=? b c2)%N
                        else if (b c1 =? 237)%N then (b c2 <=? 159)%N
                        else true)
                    && well_formed r3
                  else
                    match r3 with
                    | EmptyString => false
                    | String c4 r4 =>
                        (240 <=? b c1)%N && (b c1 <=? 244)%N
                        && tail c2 && tail c3 && tail c4
                        && (if (b c1 =? 240)%N then (144 <=? b c2)%N
                            else if (b c1 =? 244)%N then (b c2 <=? 143)%N
                            else true)
                        && well_formed r4
                    end
              end
        end
  end.

(** The order of [Array.prototype.sort] without a comparator: strings
    compared code unit by code unit. *)
Fixpoint units_leb (a b : list N) : bool :=
  match a, b with
  | [], _ => true
  | _ :: _, [] => false
  | x :: a', y :: b' =>
      if (x <? y)%N then true
      else if (y <? x)%N then false
      else units_leb a' b'
  end.

(** Insertion of a rendered property into a list sorted by key. *)
Fixpoint insert_sorted (kv : string * string) (l : list (string * string))
  : list (string * string) :=
  match l with
  | [] => [kv]
  | kv' :: r =>
      if units_leb (code_units (fst kv)) (code_units (fst kv')) then kv :: l
      else kv' :: insert_sorted kv r
  end.

Definition sort_by_key (l : list (string * string)) : list (string * string) :=
  foldr insert_sorted [] l.

(** [stringify] of json-stable-stringify: [JSON.stringify] with the keys
    of every object in sorted order and no white space.  A number that
    is not finite is written [null]. *)
Fixpoint stringify (v : JSON) : string :=
  match v with
  | JNull => "null"
  | JBool true => "true"
  | JBool false => "false"
  | JNum (Inf _) => "null"
  | JNum x => Number_toString x
  | JStr s => quote s
  | JArr l => "[" ++ join "," (map stringify l) ++ "]"
  | JObj ps =>
      let rendered := map (fun kv => (fst kv, stringify (snd kv))) ps in
      "{" ++ join "," (map (fun kv => quote (fst kv) ++ ":" ++ snd kv)
                          (sort_by_key rendered)) ++ "}"
  end.

(** [stringify(undefined)] is [undefined]. *)
Definition stringify_opt (v : option JSON) : option string :=
  stringify <$> v.

(** ** [JSON.parse]

    A recursive-descent reader of the JSON grammar (ECMA-404).  [None]
    stands for the [SyntaxError] that [JSON.parse] throws. *)

Definition is_ws (c : ascii) : bool :=
  let n := nat_of_ascii c in
  (n =? 32)%nat || (n =? 9)%nat || (n =? 10)%nat || (n =? 13)%nat.

Definition is_digit (c : ascii) : bool :=
  let n := nat_of_ascii c in (48 <=? n)%nat && (n <=? 57)%nat.

Fixpoint skip_ws (s : string) : string :=
  match s with
  | String c r => if is_ws c then skip_ws r else s
  | EmptyString => s
  end.

(** The longest prefix of digits, and what follows it. *)
Fixpoint span_digits (s : string) : string * string :=
  match s with
  | String c r =>
      if is_digit c then let (ds, rest) := span_digits r in (String c ds, rest)
      else ("", s)
  | EmptyString => ("", s)
  end.

Fixpoint digits_value (acc : Z) (ds : string) : Z :=
  match ds with
  | String c r => digits_value (10 * acc + Z.of_nat (nat_of_ascii c - 48)) r
  | EmptyString => acc
  end.

(** A number: an optional minus sign; an integer part, [0] or a non-zero
    digit followed by digits; an optional fraction, a dot and at least
    one digit; an optional exponent, [e] or [E], an optional sign and at
    least one digit.  Its value is the double nearest to the decimal
    number it writes. *)
Definition parse_number (s : string) : option (JSON * string) :=
  let (sign, s1) :=
    match s with
    | String "-" r => ("-", r)
    | _ => ("", s)
    end in
  let (int, s2) :=
    match s1 with
    | String "0" r => ("0", r)
    | _ => span_digits s1
    end in
  if String.eqb int "" then None else
  let frac :=
    match s2 with
    | String "." r =>
        let (ds, rest) := span_digits r in
        if String.eqb ds "" then None else Some (ds, rest)
    | _ => Some ("", s2)
    end in
  match frac with
  | None => None
  | Some (fr, s3) =>
      let exp :=
        match s3 with
        | String e r =>
            if Ascii.eqb e "e" || Ascii.eqb e "E" then
              let (sg, r1) :=
                match r with
                | String "+" r' => ("+", r')
                | String "-" r' => ("-", r')
                | _ => ("", r)
                end in
              let (ds, rest) := span_digits r1 in
              if String.eqb ds "" then None
              else
                let n := digits_value 0 ds in
                Some (if String.eqb sg "-" then (- n)%Z else n, rest)
            else Some (0%Z, s3)
        | EmptyString => Some (0%Z, s3)
        end in
      match exp with
      | None => None
      | Some (ex, s4) =>
          let x := decimal (digits_value 0 (int ++ fr))
                     (ex - Z.of_nat (String.length fr)) in
          Some (JNum (if String.eqb sign "-" then negate x else x), s4)
      end
  end.

Definition hex_value (c : ascii) : option nat :=
  let n := nat_of_ascii c in
  if is_digit c then Some (n - 48)
  else if (97 <=? n)%nat && (n <=? 102)%nat then Some (n - 87)
  else if (65 <=? n)%nat && (n <=? 70)%nat then Some (n - 55)
  else None.

(** The UTF-8 bytes of a code point; a surrogate is written as the
    three bytes of its own value. *)
Definition utf8 (u : N) : string :=
  let byte (n : N) := ascii_of_N n in
  if (u <? 128)%N then String (byte u) ""
  else if (u <? 2048)%N then
    String (byte (192 + u / 64)%N) (String (byte (128 + u mod 64)%N) "")
  else if (u <? 65536)%N then
    String (byte (224 + u / 4096)%N)
      (String (byte (128 + (u / 64) mod 64)%N)
         (String (byte (128 + u mod 64)%N) ""))
  else
    String (byte (240 + u / 262144)%N)
      (String (byte (128 + (u / 4096) mod 64)%N)
         (String (byte (128 + (u / 64) mod 64)%N)
            (String (byte (128 + u mod 64)%N) ""))).

(** What a string literal is made of: characters written as they are or
    by a one-letter escape, and code units written as [\uXXXX]. *)
Inductive Piece : Type :=
| Raw (c : ascii)
| Escaped (u : N).

(** The pieces of a string literal after its opening quote, up to and
    including the closing quote. *)
Fixpoint string_pieces (s : string) : option (list Piece * string) :=
  match s with
  | EmptyString => None
  | String c r =>
      if Ascii.eqb c dquote then Some ([], r)
      else if Ascii.eqb c backslash then
        match r with
        | String "u" (String a (String b (String c' (String d r')))) =>
            match hex_value a, hex_value b, hex_value c', hex_value d with
            | Some x3, Some x2, Some x1, Some x0 =>
                match string_pieces r' with
                | Some (t, rest) =>
                    Some (Escaped (N.of_nat (4096 * x3 + 256 * x2 + 16 * x1 + x0))
                            :: t, rest)
                | None => None
                end
            | _, _, _, _ => None
            end
        | String e r' =>
            let out :=
              if Ascii.eqb e dquote then Some dquote
              else if Ascii.eqb e backslash then Some backslash
              else if Ascii.eqb e "/" then Some "/"%char
              else if Ascii.eqb e "b" then Some "008"%char
              else if Ascii.eqb e "f" then Some "012"%char
              else if Ascii.eqb e "n" then Some "010"%char
              else if Ascii.eqb e "r" then Some "013"%char
              else if Ascii.eqb e "t" then Some "009"%char
              else None in
            match out with
            | Some x =>
                match string_pieces r' with
                | Some (t, rest) => Some (Raw x :: t, rest)
                | None => None
                end
            | None => None
            end
        | EmptyString => None
        end
      else if (nat_of_ascii c <? 32)%nat then None
      else
        match string_pieces r with
        | Some (t, rest) => Some (Raw c :: t, rest)
        | None => None
        end
  end.

(** The string of a list of pieces: a high surrogate followed by a low
    one is the code point of the pair. *)
Fixpoint assemble (ps : list Piece) : string :=
  match ps with
  | [] => ""
  | Raw c :: r => String c (assemble r)
  | Escaped u :: r =>
      match r with
      | Escaped v :: r' =>
          if (55296 <=? u)%N && (u <? 56320)%N && (56320 <=? v)%N && (v <? 57344)%N
          then utf8 (65536 + (u - 55296) * 1024 + (v - 56320))%N ++ assemble r'
          else utf8 u ++ assemble r
      | _ => utf8 u ++ assemble r
      end
  end.

(** The characters of a string literal after its opening quote, up to
    and including the closing quote. *)
Definition parse_string_body (s : string) : option (string * string) :=
  match string_pieces s with
  | Some (ps, rest) => Some (assemble ps, rest)
  | None => None
  end.

Definition parse_literal (lit : string) (v : JSON) (s : string)
  : option (JSON * string) :=
  if String.prefix lit s
  then Some (v, String.substring (String.length lit)
                  (String.length s - String.length lit) s)
  else None.

(** A value at the head of [s] (no leading white space), and the rest of
    the text.  [fuel] bounds the nesting depth; the element and member
    loops carry a bound [k] of their own. *)
Fixpoint parse_value (fuel : nat) (s : string) : option (JSON * string) :=
  match fuel with
  | O => None
  | S fuel' =>
      let elements :=
        fix elements (k : nat) (s : string) (acc : list JSON)
          : option (list JSON * string) :=
          match k with
          | O => None
          | S k' =>
              match parse_value fuel' (skip_ws s) with
              | Some (v, rest) =>
                  match skip_ws rest with
                  | String "," rest' => elements k' rest' (v :: acc)
                  | String "]" rest' => Some (rev (v :: acc), rest')
                  | _ => None
                  end
              | None => None
              end
          end in
      let members :=
        fix members (k : nat) (s : string) (acc : list (string * JSON))
          : option (list (string * JSON) * string) :=
          match k with
          | O => None
          | S k' =>
              match skip_ws s with
              | String q r =>
                  if Ascii.eqb q dquote then
                    match parse_string_body r with
                    | Some (key, r1) =>
                        match skip_ws r1 with
                        | String ":" r2 =>
                            match parse_value fuel' (skip_ws r2) with
                            | Some (v, rest) =>
                                match skip_ws rest with
                                | String "," rest' =>
                                    members k' rest' (assoc_set key v acc)
                                | String "}" rest' =>
                                    Some (assoc_set key v acc, rest')
                                | _ => None
                                end
                            | None => None
                            end
                        | _ => None
                        end
                    | None => None
                    end
                  else None
              | EmptyString => None
              end
          end in
      match s with
      | String "[" r =>
          match skip_ws r with
          | String "]" rest => Some (JArr [], rest)
          | _ =>
              match elements (String.length r) r [] with
              | Some (l, rest) => Some (JArr l, rest)
              | None => None
              end
          end
      | String "{" r =>
          match skip_ws r with
          | String "}" rest => Some (JObj [], rest)
          | _ =>
              match members (String.length r) r [] with
              | Some (ps, rest) => Some (JObj ps, rest)
              | None => None
              end
          end
      | String "t" _ => parse_literal "true" (JBool true) s
      | String "f" _ => parse_literal "false" (JBool false) s
      | String "n" _ => parse_literal "null" JNull s
      | String c r =>
          if Ascii.eqb c dquote then
            match parse_string_body r with
            | Some (t, rest) => Some (JStr t, rest)
            | None => None
            end
          else parse_number s
      | EmptyString => None
      end
  end.

(** [JSON.parse(text)]: one value, with optional white space around it. *)
Definition JSON_parse (text : string) : option JSON :=
  match parse_value (S (String.length text)) (skip_ws text) with
  | Some (v, rest) =>
      match skip_ws rest with
      | EmptyString => Some v
      | _ => None
      end
  | None => None
  end.

End JS.

(* ===================================================================== *)
(** * Helpers of lib/util/utils *)
(* ===================================================================== *)

Module Utils.
Import JS.

(** Modelled from the spec: [utils.parseJSON] is not under src/.  The
    spec has the payload "decoded if JSON-shaped else passed through
    verbatim": the parsed value, or the fallback when the text is not
    JSON. *)
Definition parseJSON (value fallback : string) : JSON :=
  match JSON_parse value with
  | Some v => v
  | None => JStr fallback
  end.

(** Modelled from the spec: [utils.getResponse] is not under src/.  The
    spec has the handler "always publish a response object
    {id, status: ok|error, error?} ... echoing the original request's id
    field if present", and the response "echoes the request's id field
    when present in the original payload, else omits it". *)
Definition getResponse (request : JSON) (data_id : option JSON)
    (error : option string) : JSON :=
  let id :=
    match request with
    | JObj ps =>
        match assoc "id" ps with
        | Some i => [("id", i)]
        | None => []
        end
    | _ => []
    end in
  match error with
  | Some e => JObj (id ++ [("status", JStr "error"); ("error", JStr e)])%list
  | None => JObj (id ++ [("status", JStr "ok")])%list
  end.

End Utils.

(* ===================================================================== *)
(** * The Node fragment: [path.posix] and [String.prototype.replace] *)
(* ===================================================================== *)

Module Node.
Import JS.

(** The pieces of [s] between the occurrences of [c]. *)
Fixpoint split_on (c : ascii) (s : string) : list string :=
  match s with
  | EmptyString => [""]
  | String x r =>
      if Ascii.eqb x c then "" :: split_on c r
      else
        match split_on c r with
        | h :: t => String x h :: t
        | [] => [String x ""]
        end
  end.

(** One segment on the stack of an absolute path: empty and [.]
    segments are dropped, [..] removes the segment before it and is
    dropped at the root. *)
Definition push_segment (stack : list string) (seg : string) : list string :=
  if String.eqb seg "" || String.eqb seg "." then stack
  else if String.eqb seg ".." then tail stack
  else seg :: stack.

(** The segments of [posix.resolve(p)] for an absolute path [p]. *)
Definition segments (p : string) : list string :=
  rev (fold_left push_segment (split_on "/" p) []).

(** What is left of two lists after their longest common prefix. *)
Fixpoint strip_common (l1 l2 : list string) : list string * list string :=
  match l1, l2 with
  | x :: r1, y :: r2 =>
      if String.eqb x y then strip_common r1 r2 else (l1, l2)
  | _, _ => (l1, l2)
  end.

(** [posix.relative(from, to)] for absolute paths: one [..] for every
    segment of [from] after the common prefix, then the segments of
    [to] after it. *)
Definition posix_relative (from to : string) : string :=
  let (f, t) := strip_common (segments from) (segments to) in
  join "/" (repeat ".." (length f) ++ t)%list.

(** [s.replace(pat, rep)] for a string pattern and a replacement without
    dollar signs: the first occurrence is replaced. *)
Fixpoint replace_first (pat rep s : string) : string :=
  if String.prefix pat s
  then rep ++ String.substring (String.length pat) (String.length s) s
  else
    match s with
    | EmptyString => s
    | String c r => String c (replace_first pat rep r)
    end.

End Node.

(* ===================================================================== *)
(** * The Configure extension (lib/extension/configure.ts) *)
(* ===================================================================== *)

Module Configure.
Import JS Utils.

(** ** Collaborators *)

(** [device.zh.type]. *)
Inductive DeviceType : Type :=
| Coordinator | Router | EndDevice | Unknown | GreenPower.

(** A device definition: whether it has a [configure] routine, and the
    key [zhc.getConfigureKey(definition)] derived from it. *)
Record DeviceDefinition : Type := mkDefinition {
  def_configure : bool;
  def_configureKey : Z;
}.

(** What the extension reads of a [Device]; [zh_type] is both
    [device.zh.type] and the [type] the start-up sweep filters on.
    The mutable [device.zh.meta.configured] is part of [State]. *)
Record Device : Type := mkDevice {
  ieeeAddr : string;
  name : string;
  definition : option DeviceDefinition;
  options_disabled : bool;
  interviewed : bool;
  zh_type : DeviceType;
}.

Inductive Entity : Type :=
| EDevice (device : Device)
| EGroup (group_name : string).

(** [this.zigbee], as far as [onMQTTMessage] uses it. *)
Record Zigbee : Type := mkZigbee {
  resolveEntity : JSON -> option Entity;
}.

(** The [event] argument of [configure]. *)
Inductive Event : Type :=
| started | zigbee_event | reporting_disabled | mqtt_message.

(** [eventdata.MQTTMessage]. *)
Record MQTTMessage : Type := mkMQTTMessage {
  msg_topic : string;
  msg_message : string;
}.

(** A number of [this.attempts]: incrementing [undefined] gives [NaN]. *)
Inductive Num : Type :=
| Finite (n : Z)
| NaN.

(** What a handler does to its collaborators, in the order it does it. *)
Inductive Effect : Type :=
| LoggerInfo (msg : string)
| LoggerError (msg : string)
| DefinitionConfigure (ieee : string)
    (* device.definition.configure(device.zh, endpoint, definition) is called *)
| ZhSave (ieee : string) (configured : option Z)
    (* device.zh.save(), with the value of meta.configured it persists *)
| EmitDevicesChanged
| MqttPublish (topic payload : string)
| Unhandled (e : JSError).
    (* the promise a bus handler returned is rejected with e *)

(** ** State

    The fields of the extension, [configuring] (the devices with an
    attempt in flight) and [attempts] (failures per device), both keyed
    by [device.ieeeAddr], its request [topic], and the [configured]
    marker of every device's [zh.meta] ([None]: [undefined]).

    [attempts] is a plain object in the source; an address ([0x] and
    sixteen hexadecimal digits) is never the name of a property that
    object inherits, so a key is present exactly when it was written.
    Counts are exact integers (they stay far below 2^53). *)
Record State : Type := mkState {
  configuring : gset string;
  attempts : gmap string Num;
  topic : string;
  zh_configured : gmap string Z;
}.

Definition new (base_topic : string) (markers : gmap string Z) : State :=
  {| configuring := ∅;
     attempts := ∅;
     topic := base_topic ++ "/bridge/request/device/configure";
     zh_configured := markers |}.

Definition set_configuring (f : gset string -> gset string) (st : State) : State :=
  {| configuring := f (configuring st); attempts := attempts st;
     topic := topic st; zh_configured := zh_configured st |}.

Definition set_attempts (f : gmap string Num -> gmap string Num) (st : State) : State :=
  {| configuring := configuring st; attempts := f (attempts st);
     topic := topic st; zh_configured := zh_configured st |}.

Definition set_zh_configured (f : gmap string Z -> gmap string Z) (st : State) : State :=
  {| configuring := configuring st; attempts := attempts st;
     topic := topic st; zh_configured := f (zh_configured st) |}.

(** [this.attempts[a] >= 3]: false of [undefined] and of [NaN]. *)
Definition attempts_ge_3 (st : State) (a : string) : bool :=
  match attempts st !! a with
  | Some (Finite n) => (3 <=? n)%Z
  | _ => false
  end.

(** [this.attempts[a]++]. *)
Definition increment (a : string) (m : gmap string Num) : gmap string Num :=
  match m !! a with
  | Some (Finite n) => <[a := Finite (n + 1)]> m
  | _ => <[a := NaN]> m
  end.

Definition Num_to_string (n : option Num) : string :=
  match n with
  | Some (Finite z) => Z_to_string z
  | Some NaN => "NaN"
  | None => "undefined"
  end.

(** ** [configure]

    The body of [configure] has one [await], on the promise of the
    configuration routine (line 123).  [configure] is the segment up to
    that [await]: it either returns (no [Attempt]) or has called the
    routine and is suspended on it; [configure_resume] is the segment
    that runs when the routine settles.

    An [Attempt] is what the suspended call holds on to: the device, its
    definition (read again on line 125; it is taken not to change while
    the attempt is in flight) and the [throwError] argument. *)

Record Attempt : Type := mkAttempt {
  att_device : Device;
  att_definition : DeviceDefinition;
  att_throwError : bool;
}.

(** How a promise settles.  A routine that fails rejects with (or
    throws) an [Error] object. *)
Inductive Settled : Type :=
| Fulfilled
| Rejected (error : JSError).

(** Lines 97-108: none of the three [return]s of the non-forced branch
    is taken. *)
Definition eligible (st : State) (device : Device) (event : Event) : bool :=
  if options_disabled device || negb (interviewed device) then false
  else
    match zh_configured st !! ieeeAddr device with
    | Some _ => false
    | None =>
        match zh_type device, event with
        | EndDevice, zigbee_event => true
        | EndDevice, _ => false
        | _, _ => true
        end
    end.

(** Line 111. *)
Definition gate_closed (st : State) (device : Device) (force : bool) : bool :=
  bool_decide (ieeeAddr device ∈ configuring st)
  || (attempts_ge_3 st (ieeeAddr device) && negb force).

(** Lines 115-123, up to the call of the routine. *)
Definition configure_start (st : State) (device : Device)
    (def : DeviceDefinition) (throwError : bool)
  : State * list Effect * option Attempt :=
  let a := ieeeAddr device in
  let st1 := set_configuring (fun s => {[a]} ∪ s) st in
  let st2 :=
    match attempts st1 !! a with
    | None => set_attempts (fun m => <[a := Finite 0]> m) st1
    | Some _ => st1
    end in
  (st2,
   [LoggerInfo ("Configuring '" ++ name device ++ "'"); DefinitionConfigure a],
   Some (mkAttempt device def throwError)).

Definition configure (st : State) (device : Device) (event : Event)
    (force throwError : bool)
  : State * list Effect * option Attempt :=
  match definition device with
  | Some def =>
      if negb (def_configure def) then (st, [], None)          (* 92-94 *)
      else if negb force && negb (eligible st device event)    (* 96-109 *)
      then (st, [], None)
      else if gate_closed st device force then (st, [], None)  (* 111-113 *)
      else configure_start st device def throwError            (* 115-123 *)
  | None => (st, [], None)                                     (* 92-94 *)
  end.

(** Lines 124-139: the rest of the [try], the [catch] and the [finally],
    and how the promise of [configure] settles. *)
Definition configure_resume (st : State) (att : Attempt) (r : Settled)
  : State * list Effect * Settled :=
  let device := att_device att in
  let a := ieeeAddr device in
  match r with
  | Fulfilled =>
      let key := def_configureKey (att_definition att) in
      let st1 := set_zh_configured (fun m => <[a := key]> m) st in
      (set_configuring (fun s => s ∖ {[a]}) st1,
       [LoggerInfo ("Successfully configured '" ++ name device ++ "'");
        ZhSave a (Some key);
        EmitDevicesChanged],
       Fulfilled)
  | Rejected error =>
      let st1 := set_attempts (increment a) st in
      let attempt := attempts st1 !! a in
      let msg := "Failed to configure '" ++ name device ++ "', attempt "
                 ++ Num_to_string attempt ++ " (" ++ error_stack error ++ ")" in
      (set_configuring (fun s => s ∖ {[a]}) st1,
       [LoggerError msg],
       if att_throwError att then Rejected error else Fulfilled)
  end.

(** ** The bus handlers

    A handler either returns, throws, or is suspended on an attempt of
    [configure]; [Continuation] is what it does once that attempt has
    settled. *)

Inductive Continuation : Type :=
| Detached
    (* nothing more: the listeners of lines 70-81 and the sweep's loop body *)
| Respond (message : JSON) (ID : option JSON).
    (* lines 47-55 of onMQTTMessage *)

Record Pending : Type := mkPending {
  p_attempt : Attempt;
  p_then : Continuation;
}.

Inductive Outcome : Type :=
| Returned
| Threw (e : JSError)
| Suspended (p : Pending).

Definition detached (r : State * list Effect * option Attempt)
  : State * list Effect * Outcome :=
  let '(st, effs, att) := r in
  (st, effs,
   match att with
   | Some a => Suspended (mkPending a Detached)
   | None => Returned
   end).

(** Lines 21-24 and 71-74: delete the marker and save, if there is one. *)
Definition clear_configured (st : State) (device : Device)
  : State * list Effect :=
  let a := ieeeAddr device in
  match zh_configured st !! a with
  | Some _ => (set_zh_configured (delete a) st, [ZhSave a None])
  | None => (st, [])
  end.

Definition onReconfigure (st : State) (device : Device)
  : State * list Effect * Outcome :=
  let (st1, effs1) := clear_configured st device in
  let '(st2, effs2, out) :=
    detached (configure st1 device reporting_disabled false false) in
  (st2, (effs1 ++ effs2)%list, out).

Definition onDeviceJoined (st : State) (device : Device)
  : State * list Effect * Outcome :=
  let (st1, effs1) := clear_configured st device in
  let '(st2, effs2, out) :=
    detached (configure st1 device zigbee_event false false) in
  (st2, (effs1 ++ effs2)%list, out).

Definition onDeviceInterview (st : State) (device : Device)
  : State * list Effect * Outcome :=
  detached (configure st device zigbee_event false false).

Definition onLastSeenChanged (st : State) (device : Device)
  : State * list Effect * Outcome :=
  detached (configure st device zigbee_event false false).

(** One turn of the loop of [start] (lines 63-67), for a device the
    iterator reaches: the filter, then [configure] after the sleep.
    The loop awaits each turn before the next; as a trigger, a turn may
    come at any time, which allows every order the loop can produce. *)
Definition start_sweep (st : State) (device : Device)
  : State * list Effect * Outcome :=
  match zh_type device with
  | Router => detached (configure st device started false false)
  | _ => (st, [], Returned)
  end.

(** Lines 53-55. *)
Definition respond (message : JSON) (ID : option JSON) (error : option string)
  : Effect :=
  MqttPublish "bridge/response/device/configure"
    (stringify (getResponse message ID error)).

(** Line 32: [typeof message === "object" ? message.id : message]. *)
Definition request_ID (message : JSON) : JSError + option JSON :=
  if typeof_object message then get_property message "id"
  else inr (Some message).

(** Lines 29-46, up to the [await] of [configure].  The template
    literal of line 41 is evaluated before the [try] of line 45: an
    error of its conversion leaves the handler. *)
Definition onMQTTMessage (zigbee : Zigbee) (st : State) (data : MQTTMessage)
  : State * list Effect * Outcome :=
  if String.eqb (msg_topic data) (topic st) then
    let message := parseJSON (msg_message data) (msg_message data) in
    match request_ID message with
    | inl e => (st, [], Threw e)
    | inr None => (st, [respond message None (Some "Invalid payload")], Returned)
    | inr (Some id) =>
        match resolveEntity zigbee id with
        | Some (EDevice device) =>
            match definition device with
            | Some (mkDefinition true _) =>
                match configure st device mqtt_message true true with
                | (st', effs, Some att) =>
                    (st', effs, Suspended (mkPending att (Respond message (Some id))))
                | (st', effs, None) =>
                    (st', (effs ++ [respond message (Some id) None])%list, Returned)
                end
            | _ =>
                (st,
                 [respond message (Some id)
                    (Some ("Device '" ++ name device ++ "' cannot be configured"))],
                 Returned)
            end
        | _ =>
            match ToString id with
            | inr s =>
                (st,
                 [respond message (Some id)
                    (Some ("Device '" ++ s ++ "' does not exist"))],
                 Returned)
            | inl e => (st, [], Threw e)
            end
        end
    end
  else (st, [], Returned).

(** Lines 47-55, once the awaited [configure] has settled. *)
Definition onMQTTMessage_resume (message : JSON) (ID : option JSON)
    (r : Settled) : list Effect :=
  let error :=
    match r with
    | Fulfilled => None
    | Rejected e => Some ("Failed to configure (" ++ error_message e ++ ")")
    end in
  [respond message ID error].

(** ** The transition system

    A [Trigger] is an event of the bus (or a turn of the start-up
    sweep), with the device it carries as the handler sees it at that
    moment; [Settle i r] is the configuration routine of the [i]-th
    suspended attempt settling with [r]. *)

Inductive Trigger : Type :=
| Sweep (device : Device)
| DeviceJoined (device : Device)
| DeviceInterview (device : Device)
| LastSeenChanged (device : Device)
| Reconfigure (device : Device)
| MQTTMessageReceived (zigbee : Zigbee) (data : MQTTMessage).

Inductive Label : Type :=
| Fire (t : Trigger)
| Settle (i : nat) (r : Settled).

Record Sys : Type := mkSys {
  state : State;
  pending : list Pending;
}.

(** The listener that [start] (lines 59-84) registers for each trigger. *)
Definition handle (st : State) (t : Trigger) : State * list Effect * Outcome :=
  match t with
  | Sweep d => start_sweep st d
  | DeviceJoined d => onDeviceJoined st d
  | DeviceInterview d => onDeviceInterview st d
  | LastSeenChanged d => onLastSeenChanged st d
  | Reconfigure d => onReconfigure st d
  | MQTTMessageReceived z data => onMQTTMessage z st data
  end.

(** The segment that runs when the attempt of [p] settles with [r].  The
    handler that awaits [configure] goes on one turn of the microtask
    queue after [configure] has settled; it touches no field of the
    extension, and is counted with the same segment. *)
Definition settle (st : State) (p : Pending) (r : Settled) : State * list Effect :=
  let '(st', effs, settled) := configure_resume st (p_attempt p) r in
  (st',
   (effs ++
    match p_then p with
    | Detached =>
        match settled with
        | Rejected e => [Unhandled e]
        | Fulfilled => []
        end
    | Respond message ID => onMQTTMessage_resume message ID settled
    end)%list).

(** One step; [None] when there is no [i]-th suspended attempt. *)
Definition step (s : Sys) (l : Label) : option (Sys * list Effect) :=
  match l with
  | Fire t =>
      let '(st', effs, out) := handle (state s) t in
      Some
        match out with
        | Returned => (mkSys st' (pending s), effs)
        | Threw e => (mkSys st' (pending s), (effs ++ [Unhandled e])%list)
        | Suspended p => (mkSys st' (pending s ++ [p])%list, effs)
        end
  | Settle i r =>
      match pending s !! i with
      | Some p =>
          let (st', effs) := settle (state s) p r in
          Some (mkSys st' (delete i (pending s)), effs)
      | None => None
      end
  end.

(** A run: the steps of a trace, and the effects in order. *)
Fixpoint run (s : Sys) (tr : list Label) : option (Sys * list Effect) :=
  match tr with
  | [] => Some (s, [])
  | l :: tr' =>
      match step s l with
      | Some (s1, effs1) =>
          match run s1 tr' with
          | Some (s2, effs2) => Some (s2, (effs1 ++ effs2)%list)
          | None => None
          end
      | None => None
      end
  end.

Definition init (base_topic : string) (markers : gmap string Z) : Sys :=
  mkSys (new base_topic markers) [].

(** ** Observations *)

(** The device a suspended attempt belongs to. *)
Definition p_ieee (p : Pending) : string := ieeeAddr (att_device (p_attempt p)).

(** The devices with an attempt in flight, one entry per attempt: the
    attempts whose routine has been called and has not settled. *)
Definition in_flight (s : Sys) : list string := p_ieee <$> pending s.

(** The trigger [t], fired in state [st], is about [device]: it carries
    it, or it is a request (on the request topic) whose identifier
    resolves to it. *)
Definition targets (st : State) (t : Trigger) (device : Device) : Prop :=
  match t with
  | Sweep d | DeviceJoined d | DeviceInterview d
  | LastSeenChanged d | Reconfigure d => d = device
  | MQTTMessageReceived zigbee data =>
      msg_topic data = topic st ∧
      ∃ id, request_ID (parseJSON (msg_message data) (msg_message data))
              = inr (Some id)
            ∧ resolveEntity zigbee id = Some (EDevice device)
  end.

(** [t] is one of the non-forced triggers, carrying [device]. *)
Definition non_forced (t : Trigger) (device : Device) : Prop :=
  match t with
  | Sweep d | DeviceJoined d | DeviceInterview d
  | LastSeenChanged d | Reconfigure d => d = device
  | MQTTMessageReceived _ _ => False
  end.

(** [device.definition?.configure] is defined. *)
Definition has_configure (device : Device) : bool :=
  match definition device with
  | Some def => def_configure def
  | None => false
  end.

(** A handler has changed none of the extension's fields. *)
Definition bookkeeping_kept (st st' : State) : Prop :=
  configuring st' = configuring st ∧ attempts st' = attempts st
  ∧ topic st' = topic st.

(** A handler has begun an attempt for device [a]: lines 115-119. *)
Definition attempt_begun (st st' : State) (a : string) : Prop :=
  (a ∉ configuring st) ∧
  configuring st' = {[a]} ∪ configuring st ∧
  attempts st' =
    match attempts st !! a with
    | None => <[a := Finite 0]> (attempts st)
    | Some _ => attempts st
    end ∧
  topic st' = topic st.

(** The invariant of the transition system: no device has two attempts
    in flight; [configuring] holds exactly the devices with an attempt
    in flight; such a device has a counter; and counters are numbers,
    never negative. *)
Record Inv (s : Sys) : Prop := mkInv {
  inv_nodup : NoDup (in_flight s);
  inv_flag : ∀ a, a ∈ configuring (state s) ↔ a ∈ in_flight s;
  inv_counted : ∀ a, a ∈ in_flight s → is_Some (attempts (state s) !! a);
  inv_finite : ∀ a v, attempts (state s) !! a = Some v →
                      ∃ n, v = Finite n ∧ (0 ≤ n)%Z;
}.

(** [this.attempts[a]], with [0] for [undefined] and [NaN]. *)
Definition attempt_count (st : State) (a : string) : Z :=
  match attempts st !! a with
  | Some (Finite n) => n
  | _ => 0
  end.

(** The step [l], taken in [s], is the failure of an attempt of device
    [a]: the routine of that attempt rejects. *)
Definition is_failure (a : string) (s : Sys) (l : Label) : bool :=
  match l with
  | Settle i (Rejected _) =>
      match pending s !! i with
      | Some p => bool_decide (p_ieee p = a)
      | None => false
      end
  | _ => false
  end.

(** The failed attempts of device [a] along the run of [tr] from [s]. *)
Fixpoint failures (a : string) (s : Sys) (tr : list Label) : nat :=
  match tr with
  | [] => 0
  | l :: tr' =>
      match step s l with
      | Some (s1, _) =>
          ((if is_failure a s l then 1 else 0) + failures a s1 tr')%nat
      | None => 0
      end
  end.

(** The label clears the marker of device [a]: a reconfigure request or
    a join of that device. *)
Definition clears (a : string) (l : Label) : Prop :=
  match l with
  | Fire (Reconfigure d) | Fire (DeviceJoined d) => ieeeAddr d = a
  | _ => False
  end.

(** The label is a bus message (the only forced path). *)
Definition is_request (l : Label) : Prop :=
  match l with
  | Fire (MQTTMessageReceived _ _) => True
  | _ => False
  end.

(** The configuration routine of device [a] is called among effects. *)
Definition invoked (a : string) (effs : list Effect) : Prop :=
  DefinitionConfigure a ∈ effs.

(** What a handler has done when it stops: if it is not suspended, it has
    changed none of the extension's fields and called no routine; if it
    is suspended, it has begun one attempt and called that routine. *)
Definition handled (st st' : State) (effs : list Effect) (out : Outcome)
  : Prop :=
  match out with
  | Suspended p =>
      attempt_begun st st' (p_ieee p) ∧
      has_configure (att_device (p_attempt p)) = true ∧
      (∀ b, invoked b effs ↔ b = p_ieee p)
  | _ => bookkeeping_kept st st' ∧ ∀ b, ¬ invoked b effs
  end.

(** The responses published among effects. *)
Definition is_response (e : Effect) : bool :=
  match e with
  | MqttPublish "bridge/response/device/configure" _ => true
  | _ => false
  end.

Definition responses (effs : list Effect) : list Effect :=
  List.filter is_response effs.

(** The label [l], taken in [s], is about device [a]: a trigger about a
    device of that address, or the settlement of an attempt of it. *)
Definition concerns (s : Sys) (l : Label) (a : string) : Prop :=
  match l with
  | Fire t => ∃ device, targets (state s) t device ∧ ieeeAddr device = a
  | Settle i _ => ∃ p, pending s !! i = Some p ∧ p_ieee p = a
  end.

(** The [devicesChanged] events among effects. *)
Definition is_devices_changed (e : Effect) : bool :=
  match e with
  | EmitDevicesChanged => true
  | _ => false
  end.

Definition devices_changed (effs : list Effect) : nat :=
  length (List.filter is_devices_changed effs).

End Configure.

(* ===================================================================== *)
(** * The Frontend extension (lib/extension/frontend.ts) *)
(* ===================================================================== *)

Module Frontend.
Import JS Utils.

(** [query.token] of [url.parse(request.url, true)]: absent, given once,
    or given several times. *)
Inductive QueryValue : Type :=
| QUndefined
| QString (s : string)
| QArray (l : list string).

(** A device as the replay reads it: [device.name], [this.state.get(device)],
    the value [utils.formatDate(device.zh.lastSeen ?? 0, lastSeen)]
    (a helper that is not under src/, taken as given) and
    [device.zh.linkquality]. *)
Record DeviceSnapshot : Type := mkSnapshot {
  dev_name : string;
  dev_state : list (string * JSON);
  dev_last_seen : JSON;
  dev_linkquality : option Z;
}.

(** The fields and settings of the extension, and what it reads of its
    collaborators when a client connects. *)
Record Frontend : Type := mkFrontend {
  mqttBaseTopic : string;
  auth_token : option string;                  (* settings.frontend.auth_token *)
  last_seen : string;                          (* settings.advanced.last_seen *)
  retainedMessages : list (string * string);   (* topic, payload.payload *)
  devices : list DeviceSnapshot;               (* devicesIterator(deviceNotCoordinator) *)
}.

(** A server-side socket: the events it has a listener for, what has been
    sent on it, and the code and reason it was closed with. *)
Record WebSocket : Type := mkWebSocket {
  ws_listeners : list string;
  ws_sent : list string;
  ws_closed : option (Z * string);
}.

Definition ws_on (event : string) (ws : WebSocket) : WebSocket :=
  mkWebSocket (ws_listeners ws ++ [event])%list (ws_sent ws) (ws_closed ws).

Definition ws_send (data : string) (ws : WebSocket) : WebSocket :=
  mkWebSocket (ws_listeners ws) (ws_sent ws ++ [data])%list (ws_closed ws).

Definition ws_close (code : Z) (reason : string) (ws : WebSocket) : WebSocket :=
  mkWebSocket (ws_listeners ws) (ws_sent ws) (Some (code, reason)).

(** What a listener does: the messages it hands to [mqtt.onMessage]
    (topic and payload), or the error it throws. *)
Inductive Result : Type :=
| Ok (published : list (string * string))
| Throw (e : JSError).

Definition published (r : Result) : list (string * string) :=
  match r with
  | Ok l => l
  | Throw _ => []
  end.

(** The message of the [TypeError] of [Buffer.from(undefined)]. *)
Definition Buffer_from_undefined : string :=
  "The first argument must be of type string or an instance of Buffer, "
  ++ "ArrayBuffer, or Array or an Array-like Object. Received undefined".

(** The [message] listener of lines 307-313.  [data] is a [Buffer]: an
    object, hence truthy, also when it is empty.  The server has
    checked the payload of a text frame to be well-formed UTF-8 before
    it emits [message], so the text [data.toString()] is given by the
    bytes of [data].
    The listener hands [topic] and the bytes of [stringify(payload)] to
    [mqtt.onMessage], the topic converted first; [stringify(undefined)]
    is [undefined], of which [Buffer.from] makes no buffer. *)
Definition onMessage (this : Frontend) (data : string) (isBinary : bool)
  : Result :=
  let data_truthy := true in
  if negb isBinary && data_truthy then
    let message := data in
    match JSON_parse message with
    | None => Throw (SyntaxError "Unexpected token in JSON")
    | Some v =>
        match destructure v "topic" "payload" with
        | inr (topic, payload) =>
            match ToString_opt topic with
            | inr name =>
                let t := mqttBaseTopic this ++ "/" ++ name in
                match stringify_opt payload with
                | Some s => Ok [(t, s)]
                | None => Throw (TypeError Buffer_from_undefined)
                end
            | inl e => Throw e
            end
        | inl e => Throw e
        end
    end
  else Ok [].

(** Lines 315-325: a retained message under the base topic, as sent. *)
Definition replay_retained (this : Frontend) (m : string * string)
  : list string :=
  let (topic, payload) := m in
  if String.prefix (mqttBaseTopic this ++ "/") topic then
    [stringify
       (JObj [("topic",
               JStr (String.substring (String.length (mqttBaseTopic this) + 1)
                       (String.length topic) topic));
              ("payload", parseJSON payload payload)])]
  else [].

(** Lines 327-340: the state of a device, as sent. *)
Definition replay_device (this : Frontend) (d : DeviceSnapshot) : string :=
  let payload := dev_state d in
  let payload :=
    if String.eqb (last_seen this) "disable" then payload
    else assoc_set "last_seen" (dev_last_seen d) payload in
  let payload :=
    match dev_linkquality d with
    | Some lq => assoc_set "linkquality" (JNum (Number_of_Z lq)) payload
    | None => payload
    end in
  stringify (JObj [("topic", JStr (dev_name d)); ("payload", JObj payload)]).

(** [onWebSocketConnection], lines 305-341. *)
Definition onWebSocketConnection (this : Frontend) (ws : WebSocket) : WebSocket :=
  let ws := ws_on "error" ws in
  let ws := ws_on "message" ws in
  let ws := foldl (fun w m => foldl (fun w' s => ws_send s w') w (replay_retained this m))
              ws (retainedMessages this) in
  foldl (fun w d => ws_send (replay_device this d) w) ws (devices this).

(** [!authToken]. *)
Definition falsy (authToken : option string) : bool :=
  match authToken with
  | None | Some "" => true
  | Some _ => false
  end.

(** [authToken === query.token]. *)
Definition strict_equal (authToken : option string) (token : QueryValue) : bool :=
  match authToken, token with
  | Some a, QString t => String.eqb a t
  | None, QUndefined => true
  | _, _ => false
  end.

(** The callback [onUpgrade] passes to [wss.handleUpgrade] (lines
    292-302), for the socket [ws] that the library hands to it;
    emitting [connection] runs the listener registered on line 224. *)
Definition onUpgrade (this : Frontend) (token : QueryValue) (ws : WebSocket)
  : WebSocket :=
  if falsy (auth_token this) || strict_equal (auth_token this) token
  then onWebSocketConnection this ws
  else ws_close 4401 "Unauthorized" ws.

(** A socket fresh from the handshake. *)
Definition fresh : WebSocket := mkWebSocket [] [] None.

(** ** The bus-to-client bridge and shutdown *)

(** [client.readyState] of a socket of the server (the library adds a
    socket to its clients once the handshake is done: it is never
    connecting). *)
Inductive ReadyState : Type :=
| OPEN | CLOSING | CLOSED.

(** A member of [this.wss.clients]; [ws_sent] of its socket lists what
    [send] was called with. *)
Record Client : Type := mkClient {
  readyState : ReadyState;
  client_ws : WebSocket;
  client_terminated : bool;
}.

Definition client_send (data : string) (c : Client) : Client :=
  mkClient (readyState c) (ws_send data (client_ws c)) (client_terminated c).

(** [eventdata.MQTTMessagePublished] (with [options.meta.isEntityState])
    and [eventdata.PublishEntityState] (with [entity.name]). *)
Inductive PublishEvent : Type :=
| MQTTMessagePublished (topic payload : string) (isEntityState : bool)
| PublishEntityState (entity_name : string) (message : list (string * JSON)).

(** Lines 344-363: the topic and payload to forward, or [None] when the
    listener returns early. *)
Definition forwarded (this : Frontend) (data : PublishEvent)
  : option (JSON * JSON) :=
  match data with
  | MQTTMessagePublished topic payload isEntityState =>
      if isEntityState || negb (String.prefix (mqttBaseTopic this ++ "/") topic)
      then None
      else
        Some (JStr (String.substring (String.length (mqttBaseTopic this) + 1)
                      (String.length topic) topic),
              parseJSON payload payload)
  | PublishEntityState entity_name message =>
      Some (JStr entity_name, JObj message)
  end.

(** [onMQTTPublishMessageOrEntityState], lines 343-370, on the clients
    of the server in their order. *)
Definition onMQTTPublishMessageOrEntityState (this : Frontend)
    (data : PublishEvent) (clients : list Client) : list Client :=
  match forwarded this data with
  | None => clients
  | Some (topic, payload) =>
      map (fun client =>
             match readyState client with
             | OPEN =>
                 client_send
                   (stringify (JObj [("topic", topic); ("payload", payload)]))
                   client
             | _ => client
             end)
          clients
  end.

(** ** The HTTP side *)

(** Where [onRequest] sends a request: to the final handler, or to one
    of the two static servers with the rewritten request. *)
Inductive Routed : Type :=
| NotFound
| FileServer (url path originalUrl : string)
| DeviceIconsFileServer (url path originalUrl : string).

(** [onRequest], lines 264-289.  [baseUrl] and [url] are absolute paths. *)
Definition onRequest (baseUrl url : string) : Routed :=
  let newUrl := Node.posix_relative baseUrl url in
  if String.prefix "." newUrl then NotFound
  else
    let url' := "/" ++ newUrl in
    let path := url' in
    if String.prefix "device_icons/" newUrl then
      DeviceIconsFileServer
        (Node.replace_first "/device_icons" "" url')
        (Node.replace_first "device_icons/" "" path)
        url
    else FileServer url' path url.

(** [hasSSL], lines 193-202: whether the file configured under [key]
    can be used, and the error logged when it is configured and
    missing.  [existsSync] is the file system. *)
Definition hasSSL (existsSync : string -> bool) (val : option string)
    (key : string) : bool * list string :=
  match val with
  | None | Some "" => (false, [])
  | Some v =>
      if existsSync v then (true, [])
      else
        (false,
         ["Defined " ++ key ++ " '" ++ v
          ++ "' file path does not exists, server won't be secured."])
  end.

(** The server [start] creates (lines 226-231). *)
Inductive ServerKind : Type :=
| SecureServer (key cert : string)     (* the paths whose files are read *)
| PlainServer.

Definition createServer (existsSync : string -> bool)
    (sslKey sslCert : option string) : ServerKind * list string :=
  let (key_ok, errs1) := hasSSL existsSync sslKey "ssl_key" in
  if key_ok then
    let (cert_ok, errs2) := hasSSL existsSync sslCert "ssl_cert" in
    match cert_ok, sslKey, sslCert with
    | true, Some k, Some c => (SecureServer k c, (errs1 ++ errs2)%list)
    | _, _, _ => (PlainServer, (errs1 ++ errs2)%list)
    end
  else (PlainServer, errs1).

(** What [start] listens on (lines 237-246). *)
Inductive ListenTarget : Type :=
| ListenPort (port : Z)
| ListenSocket (path : string)
| ListenHostPort (port : Z) (host : string).

Definition listen (host : option string) (port : Z) : ListenTarget :=
  match host with
  | None | Some "" => ListenPort port
  | Some h =>
      if String.prefix "/" h then ListenSocket h else ListenHostPort port h
  end.

End Frontend.

(* ===================================================================== *)
(** * Concrete devices, messages and runs *)
(* ===================================================================== *)

Module Examples.
Import JS Utils Configure.

Definition base_topic : string := "zigbee2mqtt".
Definition request_topic : string := "zigbee2mqtt/bridge/request/device/configure".

(** A router with a configuration routine. *)
Definition lamp : Device :=
  mkDevice "0x00124b0001" "lamp" (Some (mkDefinition true 42)) false true Router.

(** A sleepy end device with a configuration routine. *)
Definition sensor : Device :=
  mkDevice "0x00124b0002" "sensor" (Some (mkDefinition true 7)) false true EndDevice.

(** A device whose definition has no configuration routine, and one
    with no definition. *)
Definition plug : Device :=
  mkDevice "0x00124b0003" "plug" (Some (mkDefinition false 0)) false true Router.
Definition unsupported : Device :=
  mkDevice "0x00124b0004" "0x00124b0004" None false true Router.

(** A network that knows these devices by name. *)
Definition zigbee : Zigbee :=
  mkZigbee (fun id =>
    match id with
    | JStr "lamp" => Some (EDevice lamp)
    | JStr "sensor" => Some (EDevice sensor)
    | JStr "plug" => Some (EDevice plug)
    | JStr "group" => Some (EGroup "group")
    | _ => None
    end).

Definition request (payload : string) : Label :=
  Fire (MQTTMessageReceived zigbee (mkMQTTMessage request_topic payload)).

Definition boom : JSError := Error "timeout" "Error: timeout".

(** Two events and a forced request while the first attempt is in
    flight, three failed attempts in all (one detached, two forced),
    then one more event. *)
Definition busy_trace : list Label :=
  [ Fire (LastSeenChanged lamp);
    Fire (DeviceInterview lamp);
    request "lamp";
    Settle 0 (Rejected boom);
    request (bt "{`id`:`lamp`}");
    Settle 0 (Rejected boom);
    request "lamp";
    Fire (LastSeenChanged sensor);
    Settle 0 (Rejected boom);
    Fire (LastSeenChanged lamp) ].

(** Where that run ends, and what it did. *)
Definition busy_final : Sys :=
  match run (init base_topic ∅) busy_trace with
  | Some (s, _) => s
  | None => init base_topic ∅
  end.

Definition busy_effects : list Effect :=
  match run (init base_topic ∅) busy_trace with
  | Some (_, effs) => effs
  | None => []
  end.





(** A state in which the lamp has failed three times. *)
Definition exhausted : State :=
  mkState ∅ {[ "0x00124b0001" := Finite 3 ]} request_topic ∅.

(** A state in which the lamp and the dormant device carry a marker. *)
Definition marked : Sys :=
  init base_topic {[ "0x00124b0001" := 42%Z; "0x00124b0005" := 9%Z ]}.

(** Events for the lamp that neither clear its marker nor force. *)
Definition quiet_trace : list Label :=
  [ Fire (Sweep lamp);
    Fire (LastSeenChanged lamp);
    Fire (DeviceInterview lamp);
    Fire (DeviceJoined sensor);
    Settle 0 Fulfilled;
    Fire (LastSeenChanged lamp) ].

(** A frontend whose [auth_token] is [secret], with two retained
    messages under the base topic and one device. *)
Definition frontend : Frontend.Frontend :=
  Frontend.mkFrontend "zigbee2mqtt" (Some "secret") "ISO_8601"
    [ ("zigbee2mqtt/bridge/state", bt "{`state`:`online`}");
      ("homeassistant/status", "online");
      ("zigbee2mqtt/lamp", "ON") ]
    [ Frontend.mkSnapshot "lamp" [("state", JStr "ON")]
        (JStr "2024-01-01T00:00:00+00:00") (Some 120%Z) ].

(** The same frontend with no [auth_token]. *)
Definition open_frontend : Frontend.Frontend :=
  Frontend.mkFrontend "zigbee2mqtt" None "disable"
    (Frontend.retainedMessages frontend) (Frontend.devices frontend).

(** The extension as constructed, before any event. *)
Definition fresh_state : State := new base_topic ∅.

(** The request that names the lamp by a bare identifier. *)
Definition lamp_request : MQTTMessage := mkMQTTMessage request_topic "lamp".

(** A request whose identifier is an object with a [toString] property
    of its own, which no device is known by. *)
Definition unconvertible_request : MQTTMessage :=
  mkMQTTMessage request_topic (bt "{`id`: {`toString`: 1}}").

(** A state in which an attempt for the lamp is in flight. *)
Definition lamp_in_flight : Sys :=
  match run (init base_topic ∅) [Fire (LastSeenChanged lamp)] with
  | Some (s, _) => s
  | None => init base_topic ∅
  end.

(** A sensor that has been interviewed and carries a marker. *)
Definition sensor_marked : State :=
  new base_topic {[ "0x00124b0002" := 7%Z ]}.

(** Three clients of the server: two open, one closing. *)
Definition clients : list Frontend.Client :=
  [ Frontend.mkClient Frontend.OPEN (Frontend.mkWebSocket ["error"; "message"] ["hello"] None) false;
    Frontend.mkClient Frontend.CLOSING (Frontend.mkWebSocket ["error"; "message"] [] None) false;
    Frontend.mkClient Frontend.OPEN (Frontend.mkWebSocket ["error"; "message"] [] None) false ].

(** A file system that holds a key and no certificate. *)
Definition key_only (path : string) : bool := String.eqb path "/ssl/key.pem".

End Examples.

(* ===================================================================== *)
(** * Properties of the Configure extension *)
(* ===================================================================== *)

Import JS Utils Configure.
#[local] Set Warnings "-clear-no-such-hyp".

(** ** The JavaScript fragment on concrete texts *)

(** Numbers are read as the doubles nearest to their literals and
    written as [Number::toString] writes them. *)
Lemma numerals_as_written :
  stringify <$> JSON_parse
    "[100.0, 2.50e-1, -0, 0.1, 1e21, 1e-7, 0.000001, 123456789012345678901234567890, 9007199254740993, 9007199254740995, 5e-324, 2.4703282292062327e-324, 1.7976931348623158e308, 1.7976931348623159e308, -1e400, 0.30000000000000004, 4.35, 1E3, -12.50]"
  = Some "[100,0.25,0,0.1,1e+21,1e-7,0.000001,1.2345678901234568e+29,9007199254740992,9007199254740996,5e-324,0,1.7976931348623157e+308,null,null,0.30000000000000004,4.35,1000,-12.5]".
Proof. vm_compute. reflexivity. Qed.

(** Strings are read with their escapes resolved, an escaped pair of
    surrogates as the character it encodes, and written with the
    escapes of [JSON.stringify]; the keys of an object are written in
    the order of their UTF-16 code units. *)
Lemma strings_as_written :
  stringify <$> JSON_parse
    (bt "{`～`: `\ud83d\ude00`, `😀`: `\ude00\ud83d`, `z`: `\u00e9\n\/\u001f`, `Z`: [`\`\\`], ``: {}}")
  = Some (bt "{``:{},`Z`:[`\`\\`],`z`:`é\n/\u001f`,`😀`:`\ude00\ud83d`,`～`:`😀`}").
Proof. vm_compute. reflexivity. Qed.

(** Conversion to a string, as in a template literal. *)
Lemma conversions_as_written :
  ToString <$> JSON_parse (bt "[null, [1.0, [true, `a`]], {`valueOf`: 1}, 1e21]")
  = Some (inr ",1,true,a,[object Object],1e+21")
  ∧ ToString <$> JSON_parse (bt "[1, {`toString`: null}]")
    = Some (inl (TypeError "Cannot convert object to primitive value")).
Proof. split; vm_compute; reflexivity. Qed.

(** ** The segments of [configure] *)

Section ConfigureSegments.

Lemma configure_cases st device event force throwError :
  configure st device event force throwError = (st, [], None) ∨
  ∃ def, definition device = Some def ∧ def_configure def = true ∧
         (force = true ∨ eligible st device event = true) ∧
         gate_closed st device force = false ∧
         configure st device event force throwError
         = configure_start st device def throwError.
Proof.
  unfold configure.
  destruct (definition device) as [def|]; [ | left; reflexivity ].
  destruct (def_configure def) eqn:Hc; [ | left; reflexivity ]. simpl.
  destruct force; simpl.
  - destruct (gate_closed st device true) eqn:Hg; [ left; reflexivity | ].
    right. exists def. repeat split; auto.
  - destruct (eligible st device event) eqn:He; simpl; [ | left; reflexivity ].
    destruct (gate_closed st device false) eqn:Hg; [ left; reflexivity | ].
    right. exists def. repeat split; auto.
Qed.

Lemma gate_open st device force :
  gate_closed st device force = false →
  (ieeeAddr device ∉ configuring st) ∧
  (force = true ∨ attempts_ge_3 st (ieeeAddr device) = false).
Proof.
  unfold gate_closed. intros H.
  apply orb_false_iff in H as [H1 H2].
  apply bool_decide_eq_false in H1. split; [ done | ].
  destruct force; [ by left | right ].
  by rewrite andb_true_r in H2.
Qed.

Lemma gate_closed_in_flight st device force :
  ieeeAddr device ∈ configuring st → gate_closed st device force = true.
Proof.
  intros H. unfold gate_closed. by rewrite bool_decide_eq_true_2.
Qed.

Lemma configure_no_routine st device event force throwError :
  has_configure device = false →
  configure st device event force throwError = (st, [], None).
Proof.
  unfold has_configure, configure.
  destruct (definition device) as [def|]; [ | done ].
  by intros ->.
Qed.

Lemma configure_in_flight st device event force throwError :
  ieeeAddr device ∈ configuring st →
  configure st device event force throwError = (st, [], None).
Proof.
  intros H. destruct (configure_cases st device event force throwError)
    as [ ? |(def & _ & _ & _ & Hg & _)]; [ done | ].
  by rewrite gate_closed_in_flight in Hg.
Qed.

Lemma configure_ceiling st device event throwError :
  attempts_ge_3 st (ieeeAddr device) = true →
  configure st device event false throwError = (st, [], None).
Proof.
  intros H. destruct (configure_cases st device event false throwError)
    as [ ? |(def & _ & _ & _ & Hg & _)]; [ done | ].
  apply gate_open in Hg as [_ [ ? |Hg]]; congruence.
Qed.

Lemma configure_marked st device event throwError :
  is_Some (zh_configured st !! ieeeAddr device) →
  configure st device event false throwError = (st, [], None).
Proof.
  intros [k Hk]. destruct (configure_cases st device event false throwError)
    as [ ? |(def & _ & _ & [ ? |He] & _)]; [ done | done | ].
  unfold eligible in He. rewrite Hk in He.
  by destruct (_ || _).
Qed.

Lemma configure_returns st device event force throwError st' effs :
  configure st device event force throwError = (st', effs, None) →
  st' = st ∧ effs = [].
Proof.
  destruct (configure_cases st device event force throwError)
    as [ -> | (def & _ & _ & _ & _ & ->) ].
  - by intros [= <- <-].
  - by unfold configure_start.
Qed.

Lemma configure_suspends st device event force throwError st' effs att :
  configure st device event force throwError = (st', effs, Some att) →
  att_device att = device ∧ att_throwError att = throwError ∧
  has_configure device = true ∧
  (force = true ∨ eligible st device event = true) ∧
  (force = true ∨ attempts_ge_3 st (ieeeAddr device) = false) ∧
  (ieeeAddr device ∉ configuring st) ∧
  configuring st' = {[ieeeAddr device]} ∪ configuring st ∧
  attempts st' =
    match attempts st !! ieeeAddr device with
    | None => <[ieeeAddr device := Finite 0]> (attempts st)
    | Some _ => attempts st
    end ∧
  zh_configured st' = zh_configured st ∧
  topic st' = topic st ∧
  effs = [LoggerInfo ("Configuring '" ++ name device ++ "'");
          DefinitionConfigure (ieeeAddr device)].
Proof.
  destruct (configure_cases st device event force throwError)
    as [ -> | (def & Hd & Hc & He & Hg & ->) ]; [ done | ].
  apply gate_open in Hg as [Hin Hn].
  unfold configure_start. intros [= <- <- <-]. simpl.
  repeat split; try done;
    try (destruct (attempts st !! ieeeAddr device); reflexivity).
  unfold has_configure. by rewrite Hd.
Qed.

Lemma clear_configured_kept st device st1 effs1 :
  clear_configured st device = (st1, effs1) →
  bookkeeping_kept st st1 ∧ (∀ b, DefinitionConfigure b ∉ effs1).
Proof.
  unfold clear_configured.
  destruct (zh_configured st !! ieeeAddr device); intros [= <- <-];
    (split; [ done | ]); intros b Hb.
  - by apply list_elem_of_singleton in Hb.
  - by apply not_elem_of_nil in Hb.
Qed.

Lemma detached_configure st device event st' effs out :
  detached (configure st device event false false) = (st', effs, out) →
  (out = Returned ∧ st' = st ∧ effs = []) ∨
  (∃ att, out = Suspended (mkPending att Detached) ∧
          att_device att = device ∧
          att_throwError att = false ∧
          attempt_begun st st' (ieeeAddr device) ∧
          zh_configured st' = zh_configured st ∧
          eligible st device event = true ∧
          attempts_ge_3 st (ieeeAddr device) = false ∧
          has_configure device = true ∧
          effs = [LoggerInfo ("Configuring '" ++ name device ++ "'");
                  DefinitionConfigure (ieeeAddr device)]).
Proof.
  unfold detached.
  destruct (configure st device event false false) as [[st2 effs2] [att|]] eqn:Hc;
    intros [= <- <- <-].
  - right. exists att.
    apply configure_suspends in Hc
      as (? & ? & ? & [?|?] & [?|?] & ? & ? & ? & ? & ? & ?); try done.
  - left. by apply configure_returns in Hc as [-> ->].
Qed.

Lemma invoked_nil a : ¬ invoked a [].
Proof. unfold invoked. apply not_elem_of_nil. Qed.

Lemma invoked_app a effs1 effs2 :
  invoked a (effs1 ++ effs2)%list ↔ invoked a effs1 ∨ invoked a effs2.
Proof. unfold invoked. apply elem_of_app. Qed.

Lemma invoked_start a b n :
  invoked a [LoggerInfo n; DefinitionConfigure b] ↔ a = b.
Proof.
  unfold invoked. rewrite !elem_of_cons, elem_of_nil. split.
  - intros [?|[[= ?]|[]]]; done.
  - intros ->. right. by left.
Qed.

Lemma invoked_respond a m i e : ¬ invoked a [respond m i e].
Proof.
  unfold invoked, respond. rewrite list_elem_of_singleton. done.
Qed.

Lemma kept_refl st : bookkeeping_kept st st.
Proof. by unfold bookkeeping_kept. Qed.

Lemma handled_detached st device event st' effs out :
  detached (configure st device event false false) = (st', effs, out) →
  handled st st' effs out.
Proof.
  intros H. apply detached_configure in H
    as [(-> & -> & ->)|(att & -> & Hd & _ & Hb & _ & _ & _ & Hc & ->)]; simpl.
  - split; [ apply kept_refl | apply invoked_nil ].
  - unfold p_ieee. simpl. rewrite Hd. split; [ done | ]. split; [ done | ].
    intros b. apply invoked_start.
Qed.

Lemma handled_after_clear st device event st' effs out :
  (let (st1, effs1) := clear_configured st device in
   let '(st2, effs2, out) :=
     detached (configure st1 device event false false) in
   (st2, (effs1 ++ effs2)%list, out)) = (st', effs, out) →
  handled st st' effs out.
Proof.
  destruct (clear_configured st device) as [st1 effs1] eqn:H1.
  destruct (detached (configure st1 device event false false))
    as [[st2 effs2] out2] eqn:H2.
  intros [= <- <- <-].
  apply clear_configured_kept in H1 as [(Hc & Ha & Ht) Hn].
  apply handled_detached in H2. unfold handled in *.
  destruct out2 as [ | e | p ].
  - destruct H2 as [(? & ? & ?) Hi]. split; [ unfold bookkeeping_kept; by repeat split; congruence | ].
    intros b [?|?]%invoked_app; [ by apply (Hn b) | by apply (Hi b) ].
  - destruct H2 as [(? & ? & ?) Hi]. split; [ unfold bookkeeping_kept; by repeat split; congruence | ].
    intros b [?|?]%invoked_app; [ by apply (Hn b) | by apply (Hi b) ].
  - destruct H2 as ((Hin & Hcf & Hat & Htp) & Hh & Hi).
    split; [ | split; [ done | ] ].
    + unfold attempt_begun. rewrite <- Hc, <- Ha, <- Ht. done.
    + intros b. rewrite invoked_app, Hi. split; [ | by right ].
      intros [?|?]; [ | done ]. by destruct (Hn b).
Qed.

Lemma handle_handled st t st' effs out :
  handle st t = (st', effs, out) → handled st st' effs out.
Proof.
  destruct t as [d|d|d|d|d|z data]; simpl.
  - unfold start_sweep. destruct (zh_type d);
      try (intros [= <- <- <-]; split; [ apply kept_refl | apply invoked_nil ]).
    apply handled_detached.
  - apply handled_after_clear.
  - apply handled_detached.
  - apply handled_detached.
  - apply handled_after_clear.
  - unfold onMQTTMessage.
    destruct (String.eqb _ _);
      [ | intros [= <- <- <-]; split; [ apply kept_refl | apply invoked_nil ] ].
    destruct (request_ID _) as [e|[id|]];
      try (intros [= <- <- <-]; split;
           [ apply kept_refl | first [ apply invoked_nil | intros b; apply invoked_respond ] ]).
    destruct (resolveEntity z id) as [[device|g]|];
      try (destruct (ToString id) as [err|txt];
           (intros [= <- <- <-]; split;
            [ apply kept_refl
            | first [ apply invoked_nil | intros b; apply invoked_respond ] ])).
    destruct (definition device) as [[[] k]|] eqn:Hdef;
      try (intros [= <- <- <-]; split;
           [ apply kept_refl | intros b; apply invoked_respond ]).
    destruct (configure st device mqtt_message true true)
      as [[st2 effs2] [att|]] eqn:Hc; intros [= <- <- <-].
    + apply configure_suspends in Hc
        as (Hd & _ & Hh & _ & _ & Hin & Hcf & Hat & _ & Htp & ->).
      simpl. unfold p_ieee. simpl. rewrite Hd.
      split; [ done | ]. split; [ done | ]. intros b. apply invoked_start.
    + apply configure_returns in Hc as [-> ->]. simpl.
      split; [ apply kept_refl | intros b; apply invoked_respond ].
Qed.

Lemma increment_lookup a m b :
  increment a m !! b =
    if decide (a = b) then
      match m !! a with
      | Some (Finite n) => Some (Finite (n + 1))
      | _ => Some NaN
      end
    else m !! b.
Proof.
  unfold increment. destruct (m !! a) as [[n|]|] eqn:Ha;
    rewrite lookup_insert; by destruct (decide (a = b)).
Qed.

Lemma configure_resume_state st att r st' effs settled :
  configure_resume st att r = (st', effs, settled) →
  let a := ieeeAddr (att_device att) in
  configuring st' = configuring st ∖ {[a]} ∧
  attempts st' =
    match r with
    | Rejected _ => increment a (attempts st)
    | Fulfilled => attempts st
    end ∧
  zh_configured st' =
    match r with
    | Rejected _ => zh_configured st
    | Fulfilled => <[a := def_configureKey (att_definition att)]> (zh_configured st)
    end ∧
  topic st' = topic st ∧
  (∀ b, ¬ invoked b effs).
Proof.
  unfold configure_resume. destruct r as [|e]; intros [= <- <- <-]; simpl;
    repeat split; try done; intros b; unfold invoked;
    rewrite ?elem_of_cons, elem_of_nil; naive_solver.
Qed.

Lemma settle_state st p r st' effs :
  settle st p r = (st', effs) →
  configuring st' = configuring st ∖ {[p_ieee p]} ∧
  attempts st' =
    match r with
    | Rejected _ => increment (p_ieee p) (attempts st)
    | Fulfilled => attempts st
    end ∧
  zh_configured st' =
    match r with
    | Rejected _ => zh_configured st
    | Fulfilled =>
        <[p_ieee p := def_configureKey (att_definition (p_attempt p))]>
          (zh_configured st)
    end ∧
  topic st' = topic st ∧
  (∀ b, ¬ invoked b effs).
Proof.
  unfold settle.
  destruct (configure_resume st (p_attempt p) r) as [[st1 effs1] settled] eqn:H.
  intros [= <- <-].
  apply configure_resume_state in H as (? & ? & ? & ? & Hn).
  repeat split; try done.
  intros b [?|Hb]%invoked_app; [ by apply (Hn b) | ].
  destruct (p_then p).
  - destruct settled; unfold invoked in Hb;
      rewrite ?elem_of_cons, elem_of_nil in Hb; naive_solver.
  - by apply invoked_respond in Hb.
Qed.

Lemma in_flight_delete s i p :
  NoDup (in_flight s) → pending s !! i = Some p →
  NoDup (p_ieee <$> delete i (pending s)) ∧
  ∀ a, a ∈ p_ieee <$> delete i (pending s) ↔ a ∈ in_flight s ∧ a ≠ p_ieee p.
Proof.
  unfold in_flight. intros Hnd Hp.
  assert (Hperm : (p_ieee <$> pending s)
                  ≡ₚ p_ieee p :: (p_ieee <$> delete i (pending s))).
  { rewrite list_fmap_delete. apply delete_Permutation.
    by rewrite list_lookup_fmap, Hp. }
  rewrite Hperm in Hnd. apply NoDup_cons in Hnd as [Hnot Hnd].
  split; [ done | ]. intros a. rewrite Hperm, elem_of_cons.
  split; [ intros Ha; split; [ by right | by intros -> ] | ].
  by intros [[?|?] ?].
Qed.

Lemma init_Inv base markers : Inv (init base markers).
Proof.
  split; simpl.
  - constructor.
  - intros a. unfold in_flight. simpl. set_solver.
  - intros a Ha. by apply not_elem_of_nil in Ha.
  - intros a v. by rewrite lookup_empty.
Qed.

Lemma step_Inv s l s' effs : Inv s → step s l = Some (s', effs) → Inv s'.
Proof.
  intros [Hnd Hfl Hct Hfi]. destruct l as [t|i r]; simpl.
  - destruct (handle (state s) t) as [[st' effs'] out] eqn:Hh.
    apply handle_handled in Hh. unfold handled in Hh.
    destruct out as [ | e | p ]; intros [= <- <-].
    1,2: destruct Hh as [(Hc & Ha & _) _]; split; simpl;
         unfold in_flight in *; simpl; rewrite ?Hc, ?Ha; done.
    destruct Hh as ((Hin & Hc & Ha & _) & _ & _).
    split; unfold in_flight in *; simpl; rewrite ?fmap_app; simpl.
    + apply NoDup_app. split; [ done | ]. split; [ | apply NoDup_singleton ].
      intros x Hx ->%list_elem_of_singleton. by apply Hfl in Hx.
    + intros a. rewrite Hc, elem_of_app, list_elem_of_singleton, <- Hfl.
      set_solver.
    + intros a. rewrite Ha, elem_of_app, list_elem_of_singleton.
      intros [Hx| ->].
      * apply Hct in Hx. destruct (attempts (state s) !! p_ieee p); [ done | ].
        destruct (decide (p_ieee p = a)) as [ -> | ? ];
          [ by rewrite lookup_insert_eq | by rewrite lookup_insert_ne ].
      * destruct (attempts (state s) !! p_ieee p) eqn:E;
          [ by rewrite E | by rewrite lookup_insert_eq ].
    + intros a v. rewrite Ha.
      destruct (attempts (state s) !! p_ieee p) eqn:E; [ apply Hfi | ].
      rewrite lookup_insert. destruct (decide (p_ieee p = a)); [ | apply Hfi ].
      intros [= <-]. by exists 0%Z.
  - destruct (pending s !! i) as [p|] eqn:Hp; [ | done ].
    destruct (settle (state s) p r) as [st' effs'] eqn:Hs.
    intros [= <- <-].
    apply settle_state in Hs as (Hc & Ha & _ & _ & _).
    destruct (in_flight_delete s i p Hnd Hp) as [Hnd' Hmem].
    assert (Hp_in : p_ieee p ∈ in_flight s).
    { unfold in_flight. apply list_elem_of_fmap. exists p. split; [ done | ].
      by apply list_elem_of_lookup_2 in Hp. }
    split; unfold in_flight in *; simpl.
    + done.
    + intros a. rewrite Hc, Hmem, <- Hfl. set_solver.
    + intros a [Hx Hne]%Hmem. apply Hct in Hx. rewrite Ha.
      destruct r; [ done | ]. rewrite increment_lookup.
      by destruct (decide (p_ieee p = a)).
    + intros a v. rewrite Ha. destruct r as [|e]; [ apply Hfi | ].
      rewrite increment_lookup. destruct (decide (p_ieee p = a)); [ | apply Hfi ].
      destruct (Hct _ Hp_in) as [w Hw]. rewrite Hw.
      destruct (Hfi _ _ Hw) as (n & -> & Hn).
      intros [= <-]. exists (n + 1)%Z. split; [ done | lia ].
Qed.

Lemma run_Inv tr : ∀ s s' effs, Inv s → run s tr = Some (s', effs) → Inv s'.
Proof.
  induction tr as [|l tr IH]; intros s s' effs HI; simpl.
  - by intros [= <- <-].
  - destruct (step s l) as [[s1 effs1]|] eqn:Hs; [ | done ].
    destruct (run s1 tr) as [[s2 effs2]|] eqn:Hr; [ | done ].
    intros [= <- <-]. eapply IH; [ | done ]. by eapply step_Inv.
Qed.
End ConfigureSegments.

(** ** Mutual exclusion *)

Section MutualExclusion.

Lemma reachable_Inv base markers tr s effs :
  run (init base markers) tr = Some (s, effs) → Inv s.
Proof. apply run_Inv, init_Inv. Qed.

(** C1. In every state the system can reach, under any interleaving of
    events, forced requests and settlements: no device has two attempts
    in flight; the in-flight flag of a device is set exactly while it
    has an attempt in flight; a handler that calls the routine of a
    device had no attempt in flight for it and has set its flag; a call
    of [configure] for a device with an attempt in flight returns
    without calling the routine; and when an attempt settles, whether
    its routine succeeded or failed and whether or not the failure is
    thrown on, the flag of its device is cleared. *)
Theorem one_attempt_in_flight base markers tr s effs :
  run (init base markers) tr = Some (s, effs) →
  NoDup (in_flight s) ∧
  (∀ a, a ∈ configuring (state s) ↔ a ∈ in_flight s) ∧
  (∀ t st' effs' out b,
     handle (state s) t = (st', effs', out) → invoked b effs' →
     (b ∉ in_flight s) ∧ b ∈ configuring st') ∧
  (∀ device event force throwError,
     ieeeAddr device ∈ in_flight s →
     configure (state s) device event force throwError = (state s, [], None)) ∧
  (∀ i p r st' effs',
     pending s !! i = Some p → settle (state s) p r = (st', effs') →
     p_ieee p ∉ configuring st').
Proof.
  intros Hrun. apply reachable_Inv in Hrun as [Hnd Hfl _ _].
  split; [ done | ]. split; [ done | ]. split; [ | split ].
  - intros t st' effs' out b Hh Hb. apply handle_handled in Hh.
    unfold handled in Hh. destruct out as [ | e | p ].
    + destruct Hh as [_ Hn]. by destruct (Hn b).
    + destruct Hh as [_ Hn]. by destruct (Hn b).
    + destruct Hh as ((Hin & Hc & _) & _ & Hi).
      apply Hi in Hb as ->. rewrite <- Hfl, Hc. split; [ done | set_solver ].
  - intros device event force throwError Hin.
    apply configure_in_flight. by apply Hfl.
  - intros i p r st' effs' _ Hs.
    apply settle_state in Hs as (-> & _). set_solver.
Qed.

End MutualExclusion.

(** ** The ceiling on attempts *)

Section Ceiling.

Lemma attempts_ge_3_kept st st' a :
  attempts st' = attempts st → attempts_ge_3 st' a = attempts_ge_3 st a.
Proof. unfold attempts_ge_3. by intros ->. Qed.

Lemma non_forced_ceiling st t device st' effs out :
  attempts_ge_3 st (ieeeAddr device) = true →
  non_forced t device → handle st t = (st', effs, out) →
  out = Returned ∧ bookkeeping_kept st st' ∧ ∀ b, ¬ invoked b effs.
Proof.
  intros Hge Ht.
  assert (Hdet : ∀ st0 event st2 effs2 out2,
    attempts st0 = attempts st →
    detached (configure st0 device event false false) = (st2, effs2, out2) →
    out2 = Returned ∧ st2 = st0 ∧ effs2 = []).
  { intros st0 event st2 effs2 out2 Ha. unfold detached.
    rewrite configure_ceiling; [ by intros [= <- <- <-] | ].
    by rewrite (attempts_ge_3_kept st st0). }
  assert (Hclr : ∀ event,
    (let (st1, effs1) := clear_configured st device in
     let '(st2, effs2, out) :=
       detached (configure st1 device event false false) in
     (st2, (effs1 ++ effs2)%list, out)) = (st', effs, out) →
    out = Returned ∧ bookkeeping_kept st st' ∧ ∀ b, ¬ invoked b effs).
  { intros event.
    destruct (clear_configured st device) as [st1 effs1] eqn:H1.
    apply clear_configured_kept in H1 as [Hk Hn].
    destruct (detached (configure st1 device event false false))
      as [[st2 effs2] out2] eqn:H2.
    apply Hdet in H2 as (-> & -> & ->); [ | apply Hk ].
    intros [= <- <- <-]. rewrite app_nil_r. by repeat split; try apply Hk. }
  destruct t as [d|d|d|d|d|z data]; simpl in Ht; [ subst d .. | done ]; simpl.
  - unfold start_sweep. destruct (zh_type device);
      try (intros [= <- <- <-]; split; [ done | ]; split;
           [ apply kept_refl | apply invoked_nil ]).
    intros H. apply Hdet in H as (-> & -> & ->); [ | done ].
    split; [ done | ]. split; [ apply kept_refl | apply invoked_nil ].
  - apply Hclr.
  - intros H. apply Hdet in H as (-> & -> & ->); [ | done ].
    split; [ done | ]. split; [ apply kept_refl | apply invoked_nil ].
  - intros H. apply Hdet in H as (-> & -> & ->); [ | done ].
    split; [ done | ]. split; [ apply kept_refl | apply invoked_nil ].
  - apply Hclr.
Qed.

(** C2. For a device whose count of failed attempts has reached 3:
    every non-forced call of [configure], whatever its event, returns
    without calling the routine, and so does every handler of a
    non-forced trigger (sweep, join, interview, last seen, reconfigure),
    which leaves the extension's fields as they were; a forced call is
    not stopped by the count, it calls the routine when no attempt is in
    flight, and returns without calling it when one is. *)
Theorem ceiling_blocks_non_forced st device n :
  attempts st !! ieeeAddr device = Some (Finite n) → (3 ≤ n)%Z →
  (∀ event throwError,
     configure st device event false throwError = (st, [], None)) ∧
  (∀ t st' effs out,
     non_forced t device → handle st t = (st', effs, out) →
     out = Returned ∧ bookkeeping_kept st st' ∧ ∀ b, ¬ invoked b effs) ∧
  (∀ event throwError,
     has_configure device = true → ieeeAddr device ∉ configuring st →
     ∃ st' att,
       configure st device event true throwError
       = (st',
          [LoggerInfo ("Configuring '" ++ name device ++ "'");
           DefinitionConfigure (ieeeAddr device)],
          Some att)
       ∧ ieeeAddr device ∈ configuring st') ∧
  (∀ event throwError,
     ieeeAddr device ∈ configuring st →
     configure st device event true throwError = (st, [], None)).
Proof.
  intros Ha Hn.
  assert (Hge : attempts_ge_3 st (ieeeAddr device) = true).
  { unfold attempts_ge_3. rewrite Ha. by apply Z.leb_le. }
  split; [ | split; [ | split ] ].
  - intros event throwError. by apply configure_ceiling.
  - intros t st' effs out. by apply non_forced_ceiling.
  - intros event throwError Hh Hin.
    destruct (configure_cases st device event true throwError)
      as [He|(def & Hd & Hc & _ & Hg & He)].
    + unfold configure, has_configure in *.
      destruct (definition device) as [def|]; [ | done ].
      rewrite Hh in He. simpl in He.
      unfold gate_closed in He.
      rewrite bool_decide_eq_false_2, andb_false_r in He by done.
      simpl in He. unfold configure_start in He. done.
    + rewrite He. unfold configure_start. eexists _, _. split; [ done | ].
      simpl. rewrite Ha. simpl. set_solver.
  - intros event throwError Hin. by apply configure_in_flight.
Qed.

(** One step adds one to the count of a device exactly when it is the
    failure of an attempt of that device. *)
Lemma step_attempt_count s l s' effs a :
  Inv s → step s l = Some (s', effs) →
  attempt_count (state s') a
  = (attempt_count (state s) a + if is_failure a s l then 1 else 0)%Z.
Proof.
  intros [Hnd Hfl Hct Hfi]. destruct l as [t|i r]; simpl.
  - destruct (handle (state s) t) as [[st' effs'] out] eqn:Hh.
    apply handle_handled in Hh. unfold handled in Hh.
    assert (attempt_count st' a = attempt_count (state s) a) as Heq.
    { unfold attempt_count. destruct out as [ | e | p ].
      1,2: by destruct Hh as [(_ & -> & _) _].
      destruct Hh as ((_ & _ & -> & _) & _).
      destruct (attempts (state s) !! p_ieee p) eqn:E; [ done | ].
      rewrite lookup_insert. destruct (decide (p_ieee p = a)) as [ <- | ];
        [ by rewrite E | done ]. }
    destruct out; intros [= <- <-]; simpl; lia.
  - destruct (pending s !! i) as [p|] eqn:Hp; [ | done ].
    destruct (settle (state s) p r) as [st' effs'] eqn:Hs.
    intros [= <- <-]. simpl.
    apply settle_state in Hs as (_ & Ha & _).
    unfold attempt_count. rewrite Ha. destruct r as [|e]; [ lia | ].
    rewrite increment_lookup.
    assert (Hp_in : p_ieee p ∈ in_flight s).
    { unfold in_flight. apply list_elem_of_fmap. exists p. split; [ done | ].
      by apply list_elem_of_lookup_2 in Hp. }
    destruct (Hct _ Hp_in) as [w Hw]. destruct (Hfi _ _ Hw) as (n & -> & _).
    destruct (decide (p_ieee p = a)) as [ <- | Hne ].
    + rewrite bool_decide_eq_true_2 by done. by rewrite Hw.
    + rewrite bool_decide_eq_false_2 by done. lia.
Qed.

Lemma run_attempt_count tr : ∀ s s' effs a,
  Inv s → run s tr = Some (s', effs) →
  attempt_count (state s') a
  = (attempt_count (state s) a + Z.of_nat (failures a s tr))%Z.
Proof.
  induction tr as [|l tr IH]; intros s s' effs a HI; simpl.
  - intros [= <- <-]. lia.
  - destruct (step s l) as [[s1 effs1]|] eqn:Hs; [ | done ].
    destruct (run s1 tr) as [[s2 effs2]|] eqn:Hr; [ | done ].
    intros [= <- <-].
    rewrite (IH s1 s2 effs2 a (step_Inv _ _ _ _ HI Hs) Hr).
    rewrite (step_attempt_count _ _ _ _ a HI Hs).
    destruct (is_failure a s l); lia.
Qed.

(** C9. Along any run, the count of a device is the number of its
    attempts that failed, whichever path began them: the failure of any
    attempt in flight, detached or awaited by a request, adds one to the
    count of its device.  Once three attempts of a device have failed,
    every handler of a non-forced trigger for that device returns
    without calling a routine. *)
Theorem failures_count_toward_ceiling base markers tr s effs a :
  run (init base markers) tr = Some (s, effs) →
  attempt_count (state s) a = Z.of_nat (failures a (init base markers) tr) ∧
  (∀ i p e st' effs',
     pending s !! i = Some p →
     settle (state s) p (Rejected e) = (st', effs') →
     attempt_count st' (p_ieee p)
     = (attempt_count (state s) (p_ieee p) + 1)%Z) ∧
  ((3 ≤ failures a (init base markers) tr)%nat →
   ∀ device t st' effs' out,
     ieeeAddr device = a → non_forced t device →
     handle (state s) t = (st', effs', out) →
     out = Returned ∧ ∀ b, ¬ invoked b effs').
Proof.
  intros Hrun.
  pose proof (reachable_Inv _ _ _ _ _ Hrun) as HI.
  pose proof (run_attempt_count tr _ _ _ a (init_Inv base markers) Hrun) as Hc.
  assert (attempt_count (state (init base markers)) a = 0%Z) as H0
    by (unfold attempt_count; simpl; by rewrite lookup_empty).
  rewrite H0 in Hc. simpl in Hc.
  split; [ done | ]. split.
  - intros i p e st' effs' Hp Hs.
    assert (Hst : step s (Settle i (Rejected e))
                  = Some (mkSys st' (delete i (pending s)), effs'))
      by (unfold step; rewrite Hp, Hs; reflexivity).
    pose proof (step_attempt_count _ _ _ _ (p_ieee p) HI Hst) as Hcount.
    simpl in Hcount. rewrite Hp in Hcount.
    by rewrite bool_decide_eq_true_2 in Hcount.
  - intros H3 device t st' effs' out <- Ht Hh.
    assert (Hge : attempts_ge_3 (state s) (ieeeAddr device) = true).
    { unfold attempt_count in Hc. unfold attempts_ge_3.
      destruct (attempts (state s) !! ieeeAddr device) as [[n|]|];
        [ apply Z.leb_le; lia | lia | lia ]. }
    destruct (non_forced_ceiling _ _ _ _ _ _ Hge Ht Hh) as (? & _ & ?).
    done.
Qed.

End Ceiling.

(** ** The eligibility gate and the force flag *)

Section Eligibility.


(** C4. For a device whose definition is absent or has no configuration
    routine, every call of [configure], forced or not, returns with the
    state as it was; and every handler of a trigger about that device
    (an event carrying it, or a request resolving to it) stops without
    being suspended, leaves [configuring] and [attempts] as they were,
    and calls no routine. *)
Theorem no_routine_no_bookkeeping st device :
  has_configure device = false →
  (∀ event force throwError,
     configure st device event force throwError = (st, [], None)) ∧
  (∀ t st' effs out,
     targets st t device → handle st t = (st', effs, out) →
     out = Returned ∧
     configuring st' = configuring st ∧ attempts st' = attempts st ∧
     ∀ b, ¬ invoked b effs).
Proof.
  intros Hno. split; [ intros; by apply configure_no_routine | ].
  assert (Hdet : ∀ st0 event,
    detached (configure st0 device event false false) = (st0, [], Returned)).
  { intros st0 event. unfold detached. by rewrite configure_no_routine. }
  assert (Hclr : ∀ event st' effs out,
    (let (st1, effs1) := clear_configured st device in
     let '(st2, effs2, out) :=
       detached (configure st1 device event false false) in
     (st2, (effs1 ++ effs2)%list, out)) = (st', effs, out) →
    out = Returned ∧
    configuring st' = configuring st ∧ attempts st' = attempts st ∧
    ∀ b, ¬ invoked b effs).
  { intros event st' effs out.
    destruct (clear_configured st device) as [st1 effs1] eqn:H1.
    apply clear_configured_kept in H1 as [(Hc & Ha & _) Hn].
    rewrite Hdet. intros [= <- <- <-]. rewrite app_nil_r. done. }
  intros t st' effs out Ht.
  destruct t as [d|d|d|d|d|z data]; simpl in Ht; simpl.
  - subst d. unfold start_sweep.
    destruct (zh_type device); rewrite ?Hdet; intros [= <- <- <-];
      repeat split; apply invoked_nil.
  - subst d. apply Hclr.
  - subst d. unfold onDeviceInterview. rewrite Hdet. intros [= <- <- <-].
    repeat split; apply invoked_nil.
  - subst d. unfold onLastSeenChanged. rewrite Hdet. intros [= <- <- <-].
    repeat split; apply invoked_nil.
  - subst d. apply Hclr.
  - destruct Ht as (Htopic & id & Hid & Hres).
    unfold onMQTTMessage. rewrite Htopic, String.eqb_refl, Hid, Hres.
    unfold has_configure in Hno.
    destruct (definition device) as [[c k]|]; simpl in Hno;
      [ subst c | ]; intros [= <- <- <-];
      repeat split; intros b; apply invoked_respond.
Qed.

End Eligibility.

(** ** The configured marker *)

Section Marker.

Lemma clear_configured_marker st device st1 effs1 a :
  clear_configured st device = (st1, effs1) →
  zh_configured st1 !! ieeeAddr device = None ∧
  (ieeeAddr device ≠ a → zh_configured st1 !! a = zh_configured st !! a).
Proof.
  unfold clear_configured.
  destruct (zh_configured st !! ieeeAddr device) eqn:E; intros [= <- <-]; simpl.
  - split; [ apply lookup_delete_eq | intros; by apply lookup_delete_ne ].
  - done.
Qed.

(** A non-forced call for a device other than [a], or for [a] while it
    carries its marker, leaves the marker of [a] and does not call the
    routine of [a]. *)
Lemma detached_marked st device event st' effs out a :
  (ieeeAddr device = a → is_Some (zh_configured st !! a)) →
  detached (configure st device event false false) = (st', effs, out) →
  zh_configured st' = zh_configured st ∧ ¬ invoked a effs.
Proof.
  intros Hm H. apply detached_configure in H
    as [(-> & -> & ->)|(att & -> & _ & _ & _ & Hz & He & _ & _ & ->)].
  - split; [ done | apply invoked_nil ].
  - split; [ done | ]. intros Ha%invoked_start. subst a.
    destruct (Hm eq_refl) as [k Hk]. unfold eligible in He.
    rewrite Hk in He. by destruct (_ || _).
Qed.

Lemma handle_marker_kept st t st' effs out a :
  ¬ clears a (Fire t) → handle st t = (st', effs, out) →
  zh_configured st' !! a = zh_configured st !! a.
Proof.
  intros Hcl.
  assert (Hdet : ∀ st0 device event st2 effs2 out2,
    detached (configure st0 device event false false) = (st2, effs2, out2) →
    zh_configured st2 = zh_configured st0).
  { intros st0 device event st2 effs2 out2 H. apply detached_configure in H
      as [(_ & -> & _)|(att & _ & _ & _ & _ & Hz & _)]; done. }
  assert (Hclr : ∀ device event,
    ieeeAddr device ≠ a →
    (let (st1, effs1) := clear_configured st device in
     let '(st2, effs2, out) :=
       detached (configure st1 device event false false) in
     (st2, (effs1 ++ effs2)%list, out)) = (st', effs, out) →
    zh_configured st' !! a = zh_configured st !! a).
  { intros device event Hne.
    destruct (clear_configured st device) as [st1 effs1] eqn:H1.
    apply (clear_configured_marker _ _ _ _ a) in H1 as [_ H1].
    destruct (detached (configure st1 device event false false))
      as [[st2 effs2] out2] eqn:H2.
    apply Hdet in H2. intros [= <- <- <-]. rewrite H2. by apply H1. }
  destruct t as [d|d|d|d|d|z data]; simpl in Hcl; simpl.
  - unfold start_sweep. destruct (zh_type d);
      try (by intros [= <- <- <-]).
    intros H. by rewrite (Hdet _ _ _ _ _ _ H).
  - by apply Hclr.
  - intros H. by rewrite (Hdet _ _ _ _ _ _ H).
  - intros H. by rewrite (Hdet _ _ _ _ _ _ H).
  - by apply Hclr.
  - unfold onMQTTMessage. destruct (String.eqb _ _); [ | by intros [= <- <- <-] ].
    destruct (request_ID _) as [e|[id|]]; try (by intros [= <- <- <-]).
    destruct (resolveEntity z id) as [[device|g]|];
      try (by destruct (ToString id) as [err|txt]; intros [= <- <- <-]).
    destruct (definition device) as [[[] k]|]; try (by intros [= <- <- <-]).
    destruct (configure st device mqtt_message true true)
      as [[st2 effs2] [att|]] eqn:Hc; intros [= <- <- <-].
    + apply configure_suspends in Hc
        as (_ & _ & _ & _ & _ & _ & _ & _ & -> & _). done.
    + by apply configure_returns in Hc as [-> _].
Qed.

Lemma handle_marked_quiet st t st' effs out a :
  is_Some (zh_configured st !! a) →
  ¬ clears a (Fire t) → ¬ is_request (Fire t) →
  handle st t = (st', effs, out) → ¬ invoked a effs.
Proof.
  intros Hm Hcl Hrq.
  assert (Hclr : ∀ device event,
    ieeeAddr device ≠ a →
    (let (st1, effs1) := clear_configured st device in
     let '(st2, effs2, out) :=
       detached (configure st1 device event false false) in
     (st2, (effs1 ++ effs2)%list, out)) = (st', effs, out) →
    ¬ invoked a effs).
  { intros device event Hne.
    destruct (clear_configured st device) as [st1 effs1] eqn:H1.
    apply clear_configured_kept in H1 as [_ Hn].
    destruct (detached (configure st1 device event false false))
      as [[st2 effs2] out2] eqn:H2.
    apply (detached_marked _ _ _ _ _ _ a) in H2 as [_ H2]; [ | done ].
    intros [= <- <- <-] [?|?]%invoked_app; [ by apply (Hn a) | done ]. }
  destruct t as [d|d|d|d|d|z data]; simpl in Hcl, Hrq; simpl; [ .. | done ].
  - unfold start_sweep. destruct (zh_type d);
      try (intros [= <- <- <-]; apply invoked_nil).
    intros H. apply (detached_marked _ _ _ _ _ _ a) in H as [_ H]; [ done | ].
    by intros _.
  - by apply Hclr.
  - intros H. apply (detached_marked _ _ _ _ _ _ a) in H as [_ H]; [ done | ].
    by intros _.
  - intros H. apply (detached_marked _ _ _ _ _ _ a) in H as [_ H]; [ done | ].
    by intros _.
  - by apply Hclr.
Qed.

Lemma step_marked s l s' effs a :
  is_Some (zh_configured (state s) !! a) →
  ¬ clears a l → step s l = Some (s', effs) →
  is_Some (zh_configured (state s') !! a) ∧
  (¬ is_request l → ¬ invoked a effs).
Proof.
  intros Hm Hcl. destruct l as [t|i r]; simpl.
  - destruct (handle (state s) t) as [[st' effs'] out] eqn:Hh.
    pose proof (handle_marker_kept _ _ _ _ _ a Hcl Hh) as Hk.
    assert (¬ is_request (Fire t) → ¬ invoked a effs') as Hq
      by (intros Hrq; by eapply handle_marked_quiet).
    destruct out; intros [= <- <-]; simpl; rewrite Hk; (split; [ done | ]);
      try done.
    intros Hrq [?|Hu]%invoked_app; [ by apply Hq | ].
    unfold invoked in Hu. by apply list_elem_of_singleton in Hu.
  - destruct (pending s !! i) as [p|] eqn:Hp; [ | done ].
    destruct (settle (state s) p r) as [st' effs'] eqn:Hs.
    intros [= <- <-]. simpl.
    apply settle_state in Hs as (_ & _ & Hz & _ & Hn).
    split; [ | intros _; apply Hn ].
    rewrite Hz. destruct r; [ | done ].
    rewrite lookup_insert. by destruct (decide (p_ieee p = a)).
Qed.

Lemma run_marked tr : ∀ s s' effs a,
  is_Some (zh_configured (state s) !! a) →
  Forall (λ l, ¬ clears a l) tr →
  run s tr = Some (s', effs) →
  is_Some (zh_configured (state s') !! a) ∧
  (Forall (λ l, ¬ is_request l) tr → ¬ invoked a effs).
Proof.
  induction tr as [|l tr IH]; intros s s' effs a Hm Hcl; simpl.
  - intros [= <- <-]. split; [ done | intros _; apply invoked_nil ].
  - apply Forall_cons in Hcl as [Hl Hcl].
    destruct (step s l) as [[s1 effs1]|] eqn:Hs; [ | done ].
    destruct (run s1 tr) as [[s2 effs2]|] eqn:Hr; [ | done ].
    intros [= <- <-].
    destruct (step_marked _ _ _ _ a Hm Hl Hs) as [Hm1 Hq1].
    destruct (IH _ _ _ a Hm1 Hcl Hr) as [Hm2 Hq2].
    split; [ done | ].
    intros [Hrl Hrq]%Forall_cons [?|?]%invoked_app;
      [ by apply Hq1 | by apply Hq2 ].
Qed.

(** C5. While a device carries its [configured] marker, every non-forced
    call of [configure] for it returns without calling the routine.  The
    marker stays along every run in which no reconfigure request and no
    join of that device occurs, and if the run has no request either
    (the forced path), the routine of the device is not called in it.
    The handlers of a reconfigure request and of a join delete the
    marker and save the device first, and then call [configure],
    non-forced, on the state without the marker. *)
Theorem configured_marker_idempotent s a k :
  zh_configured (state s) !! a = Some k →
  (∀ device event throwError,
     ieeeAddr device = a →
     configure (state s) device event false throwError = (state s, [], None)) ∧
  (∀ tr s' effs,
     Forall (λ l, ¬ clears a l) tr → run s tr = Some (s', effs) →
     is_Some (zh_configured (state s') !! a) ∧
     (Forall (λ l, ¬ is_request l) tr → ¬ invoked a effs)) ∧
  (∀ device,
     ieeeAddr device = a →
     let st1 := set_zh_configured (delete a) (state s) in
     zh_configured st1 !! a = None ∧
     onReconfigure (state s) device
     = (let '(st2, effs2, out) :=
          detached (configure st1 device reporting_disabled false false) in
        (st2, ZhSave a None :: effs2, out)) ∧
     onDeviceJoined (state s) device
     = (let '(st2, effs2, out) :=
          detached (configure st1 device zigbee_event false false) in
        (st2, ZhSave a None :: effs2, out))).
Proof.
  intros Hk. split; [ | split ].
  - intros device event throwError <-. apply configure_marked. by rewrite Hk.
  - intros tr s' effs. apply run_marked. by rewrite Hk.
  - intros device <-. simpl. split; [ apply lookup_delete_eq | ].
    unfold onReconfigure, onDeviceJoined, clear_configured.
    rewrite Hk. split.
    + by destruct (detached _) as [[st2 effs2] out].
    + by destruct (detached _) as [[st2 effs2] out].
Qed.

End Marker.

(** ** The request and response channel *)

Section Requests.

(** C6. The request whose payload is the JSON text [null], received on
    the request topic: reading [message.id] throws a [TypeError], the
    handler is rejected with it, and no response is published. *)
Theorem null_request_gets_no_response zigbee s :
  step s (Fire (MQTTMessageReceived zigbee
                  (mkMQTTMessage (topic (state s)) "null")))
  = Some (s, [Unhandled
                (TypeError "Cannot read properties of null (reading 'id')")])
  ∧ responses
      [Unhandled (TypeError "Cannot read properties of null (reading 'id')")]
    = [].
Proof.
  split; [ | reflexivity ].
  unfold step, handle, onMQTTMessage. simpl msg_topic. simpl msg_message.
  rewrite String.eqb_refl.
  change (parseJSON "null" "null") with JNull. simpl. by destruct s.
Qed.

Lemma responses_app effs1 effs2 :
  responses (effs1 ++ effs2)%list = (responses effs1 ++ responses effs2)%list.
Proof. unfold responses. apply List.filter_app. Qed.

Lemma responses_start n a :
  responses [LoggerInfo n; DefinitionConfigure a] = [].
Proof. reflexivity. Qed.

Lemma responses_respond m i e : responses [respond m i e] = [respond m i e].
Proof. reflexivity. Qed.

(** A request on the request topic is answered exactly once: at
    once when the handler returns, and otherwise when the attempt it
    awaits settles, in whatever state and with whatever result.  The
    code of the handler throws, without a response and without a change
    of state, in two cases only: the payload decodes to [null]; or the
    identifier resolves to no device and its conversion to a string,
    for the message of the response, throws. *)
Theorem request_answered_once zigbee st data st' effs out :
  msg_topic data = topic st →
  onMQTTMessage zigbee st data = (st', effs, out) →
  match out with
  | Returned => length (responses effs) = 1%nat
  | Threw e =>
      st' = st ∧ effs = [] ∧
      (parseJSON (msg_message data) (msg_message data) = JNull ∨
       ∃ id,
         request_ID (parseJSON (msg_message data) (msg_message data))
         = inr (Some id)
         ∧ (∀ device, resolveEntity zigbee id ≠ Some (EDevice device))
         ∧ ToString id = inl e)
  | Suspended p =>
      responses effs = [] ∧
      ∀ st2 r st3 effs3,
        settle st2 p r = (st3, effs3) →
        length (responses effs3) = 1%nat ∧ ∀ e, Unhandled e ∉ effs3
  end.
Proof.
  intros Ht. unfold onMQTTMessage. rewrite Ht, String.eqb_refl.
  set (message := parseJSON _ _) in *.
  destruct (request_ID message) as [e0|ID] eqn:Hid.
  { intros [= <- <- <-]. split; [ done | ]. split; [ done | ]. left.
    unfold request_ID, get_property in Hid.
    by destruct message. }
  destruct ID as [id|]; [ | by intros [= <- <- <-] ].
  destruct (resolveEntity zigbee id) as [[device|g]|] eqn:Hres.
  2, 3: destruct (ToString id) as [err|txt] eqn:Hstr; intros [= <- <- <-];
    [ split; [ done | ]; split; [ done | ]; right; exists id;
      split; [ done | ]; split; [ intros device; congruence | done ]
    | done ].
  destruct (definition device) as [[[] k]|]; try (by intros [= <- <- <-]).
  destruct (configure st device mqtt_message true true)
    as [[st2 effs2] [att|]] eqn:Hc; intros [= <- <- <-].
  - apply configure_suspends in Hc
      as (_ & _ & _ & _ & _ & _ & _ & _ & _ & _ & ->).
    split; [ reflexivity | ].
    intros st2' r st3 effs3. unfold settle. simpl.
    destruct (configure_resume st2' att r) as [[st4 effs4] settled] eqn:Hr.
    intros [= <- <-]. rewrite responses_app.
    unfold configure_resume in Hr.
    destruct r as [|err]; injection Hr as <- <- <-; simpl.
    + split; [ done | ]. intros e He.
      unfold onMQTTMessage_resume, respond in He.
      repeat (apply elem_of_cons in He as [He|He]; [ discriminate He | ]).
      by apply elem_of_nil in He.
    + split; [ done | ]. intros e He.
      unfold onMQTTMessage_resume, respond in He.
      repeat (apply elem_of_cons in He as [He|He]; [ discriminate He | ]).
      by apply elem_of_nil in He.
  - apply configure_returns in Hc as [-> ->]. reflexivity.
Qed.

(** The request [{"id": "bad_id"}] when nothing resolves to [bad_id]:
    one response, with the fields [id], [status] and [error]. *)
Lemma bad_id_response zigbee st :
  resolveEntity zigbee (JStr "bad_id") = None →
  onMQTTMessage zigbee st (mkMQTTMessage (topic st) (bt "{`id`: `bad_id`}"))
  = (st,
     [MqttPublish "bridge/response/device/configure"
        (stringify (JObj [("id", JStr "bad_id");
                          ("status", JStr "error");
                          ("error", JStr "Device 'bad_id' does not exist")]))],
     Returned).
Proof.
  intros Hres. unfold onMQTTMessage. simpl msg_topic. simpl msg_message.
  rewrite String.eqb_refl.
  change (parseJSON (bt "{`id`: `bad_id`}") (bt "{`id`: `bad_id`}"))
    with (JObj [("id", JStr "bad_id")]).
  simpl. by rewrite Hres.
Qed.

End Requests.

(** ** The properties on concrete runs *)

Lemma one_attempt_in_flight_witness :
  run (init Examples.base_topic ∅) Examples.busy_trace
  = Some (Examples.busy_final, Examples.busy_effects)
  ∧ NoDup (in_flight Examples.busy_final)
  ∧ in_flight Examples.busy_final = ["0x00124b0002"]
  ∧ ∀ a, a ∈ configuring (state Examples.busy_final)
         ↔ a ∈ in_flight Examples.busy_final.
Proof.
  assert (H : run (init Examples.base_topic ∅) Examples.busy_trace
              = Some (Examples.busy_final, Examples.busy_effects))
    by (vm_compute; reflexivity).
  split; [ exact H | ].
  destruct (one_attempt_in_flight _ _ _ _ _ H) as (H1 & H2 & _).
  split; [ exact H1 | ]. split; [ vm_compute; reflexivity | exact H2 ].
Defined.

Lemma ceiling_blocks_non_forced_witness :
  attempts Examples.exhausted !! ieeeAddr Examples.lamp = Some (Finite 3)
  ∧ (3 ≤ 3)%Z
  ∧ (∀ event throwError,
       configure Examples.exhausted Examples.lamp event false throwError
       = (Examples.exhausted, [], None))
  ∧ ∃ st' att,
      configure Examples.exhausted Examples.lamp mqtt_message true true
      = (st',
         [LoggerInfo "Configuring 'lamp'"; DefinitionConfigure "0x00124b0001"],
         Some att)
      ∧ ieeeAddr Examples.lamp ∈ configuring st'.
Proof.
  assert (H : attempts Examples.exhausted !! ieeeAddr Examples.lamp
              = Some (Finite 3)) by (vm_compute; reflexivity).
  assert (H3 : (3 ≤ 3)%Z) by lia.
  split; [ exact H | ]. split; [ exact H3 | ].
  destruct (ceiling_blocks_non_forced _ _ _ H H3) as (H1 & _ & H2 & _).
  split; [ exact H1 | ].
  apply (H2 mqtt_message true); [ reflexivity | ].
  vm_compute. intros Hin. inversion Hin.
Defined.

Lemma failures_count_toward_ceiling_witness :
  run (init Examples.base_topic ∅) Examples.busy_trace
  = Some (Examples.busy_final, Examples.busy_effects)
  ∧ failures "0x00124b0001" (init Examples.base_topic ∅) Examples.busy_trace = 3%nat
  ∧ attempt_count (state Examples.busy_final) "0x00124b0001" = 3%Z
  ∧ ∀ st' effs' out,
      handle (state Examples.busy_final) (LastSeenChanged Examples.lamp)
      = (st', effs', out) →
      out = Returned ∧ ∀ b, ¬ invoked b effs'.
Proof.
  assert (H : run (init Examples.base_topic ∅) Examples.busy_trace
              = Some (Examples.busy_final, Examples.busy_effects))
    by (vm_compute; reflexivity).
  assert (Hf : failures "0x00124b0001" (init Examples.base_topic ∅)
                 Examples.busy_trace = 3%nat) by (vm_compute; reflexivity).
  split; [ exact H | ]. split; [ exact Hf | ].
  destruct (failures_count_toward_ceiling _ _ _ _ _ "0x00124b0001" H)
    as (H1 & _ & H2).
  split; [ by rewrite H1, Hf | ].
  intros st' effs' out. apply (H2 ltac:(rewrite Hf; lia) Examples.lamp);
    reflexivity.
Defined.


Lemma no_routine_no_bookkeeping_witness :
  has_configure Examples.plug = false
  ∧ (∀ event force throwError,
       configure Examples.exhausted Examples.plug event force throwError
       = (Examples.exhausted, [], None))
  ∧ ∀ st' effs out,
      handle Examples.exhausted
        (MQTTMessageReceived Examples.zigbee
           (mkMQTTMessage Examples.request_topic "plug"))
      = (st', effs, out) →
      out = Returned ∧
      configuring st' = configuring Examples.exhausted ∧
      attempts st' = attempts Examples.exhausted ∧
      ∀ b, ¬ invoked b effs.
Proof.
  assert (H : has_configure Examples.plug = false) by reflexivity.
  split; [ exact H | ].
  destruct (no_routine_no_bookkeeping Examples.exhausted _ H) as [H1 H2].
  split; [ exact H1 | ].
  intros st' effs out. apply H2. simpl. split; [ reflexivity | ].
  exists (JStr "plug"). split; reflexivity.
Defined.

Lemma configured_marker_idempotent_witness :
  zh_configured (state Examples.marked) !! "0x00124b0001" = Some 42%Z
  ∧ (∀ event throwError,
       configure (state Examples.marked) Examples.lamp event false throwError
       = (state Examples.marked, [], None))
  ∧ ∃ s' effs,
      run Examples.marked Examples.quiet_trace = Some (s', effs)
      ∧ is_Some (zh_configured (state s') !! "0x00124b0001")
      ∧ ¬ invoked "0x00124b0001" effs.
Proof.
  assert (H : zh_configured (state Examples.marked) !! "0x00124b0001"
              = Some 42%Z) by (vm_compute; reflexivity).
  split; [ exact H | ].
  destruct (configured_marker_idempotent _ _ _ H) as (H1 & H2 & _).
  split; [ intros event throwError; by apply H1 | ].
  destruct (run Examples.marked Examples.quiet_trace) as [[s' effs]|] eqn:Hr;
    [ | vm_compute in Hr; discriminate Hr ].
  exists s', effs. split; [ reflexivity | ].
  assert (Hcl : Forall (λ l, ¬ clears "0x00124b0001" l) Examples.quiet_trace).
  { unfold Examples.quiet_trace.
    repeat (apply Forall_cons; split;
            [ simpl; intros Hl; first [ exact Hl | discriminate Hl ] | ]).
    apply Forall_nil. done. }
  assert (Hrq : Forall (λ l, ¬ is_request l) Examples.quiet_trace).
  { unfold Examples.quiet_trace.
    repeat (apply Forall_cons; split; [ simpl; intros Hl; exact Hl | ]).
    apply Forall_nil. done. }
  destruct (H2 _ _ _ Hcl Hr) as [Hm Hq]. split; [ exact Hm | by apply Hq ].
Defined.

(* ===================================================================== *)
(** * Properties of the Frontend extension *)
(* ===================================================================== *)

Module FrontendProperties.
Import JS Utils Frontend.

Lemma foldl_send_listeners {A} (g : A → string) (l : list A) ws :
  ws_listeners (foldl (fun w x => ws_send (g x) w) ws l) = ws_listeners ws.
Proof.
  revert ws. induction l as [|x l IH]; intros ws; simpl; [ done | ].
  by rewrite IH.
Qed.

Lemma foldl_replay_listeners {A} (f : A → list string) (l : list A) ws :
  ws_listeners (foldl (fun w x => foldl (fun w' m => ws_send m w') w (f x)) ws l)
  = ws_listeners ws.
Proof.
  revert ws. induction l as [|x l IH]; intros ws; simpl; [ done | ].
  rewrite IH. apply (foldl_send_listeners (fun m => m)).
Qed.

(** The connection handler adds its two listeners to the socket. *)
Lemma connection_registers_listeners this ws :
  ws_listeners (onWebSocketConnection this ws)
  = (ws_listeners ws ++ ["error"; "message"])%list.
Proof.
  unfold onWebSocketConnection.
  rewrite foldl_send_listeners, foldl_replay_listeners. simpl.
  by rewrite <- app_assoc.
Qed.

(** C7. For the socket of an upgrade: when a non-empty [auth_token] is
    configured and the token of the query string is not that very
    string (it is absent, given several times, or another string), the
    socket is closed with code 4401, and the connection handler is not
    run on it: no listener is added and nothing is sent.  When no
    [auth_token] is configured, the connection handler is run on the
    socket, whatever the token. *)
Theorem upgrade_authorization this token ws :
  (∀ t, auth_token this = Some t → t ≠ "" → token ≠ QString t →
     onUpgrade this token ws = ws_close 4401 "Unauthorized" ws ∧
     ws_closed (onUpgrade this token ws) = Some (4401%Z, "Unauthorized") ∧
     ws_listeners (onUpgrade this token ws) = ws_listeners ws ∧
     ws_sent (onUpgrade this token ws) = ws_sent ws ∧
     onUpgrade this token ws ≠ onWebSocketConnection this ws) ∧
  (auth_token this = None →
     onUpgrade this token ws = onWebSocketConnection this ws).
Proof.
  split.
  - intros t Ht Hne Htok.
    assert (H : onUpgrade this token ws = ws_close 4401 "Unauthorized" ws).
    { unfold onUpgrade. rewrite Ht.
      assert (falsy (Some t) = false) as -> by (by destruct t).
      assert (strict_equal (Some t) token = false) as ->; [ | done ].
      destruct token as [|u|l]; simpl; try done.
      apply String.eqb_neq. by intros ->. }
    rewrite H. repeat split; try done.
    intros Heq. apply (f_equal ws_listeners) in Heq.
    rewrite connection_registers_listeners in Heq. simpl in Heq.
    apply (f_equal length) in Heq. rewrite length_app in Heq. simpl in Heq. lia.
  - intros Hnone. unfold onUpgrade. by rewrite Hnone.
Qed.

(** C8. A non-binary client message, well-formed UTF-8 as the payload
    of a text frame is, whose text parses as an object with a string
    [topic] and a [payload] is handed to the bus transport once, on the
    base topic, a slash and that topic, with the stable JSON text of
    the payload; so for the message of topic [t] and payload [{"a":1}].
    The stable text has the keys in order, every number as the double
    it denotes is printed, and every string with its escapes
    resolved. *)
Theorem client_message_is_published this :
  (∀ data ps t p,
     well_formed data = true →
     JSON_parse data = Some (JObj ps) →
     assoc "topic" ps = Some (JStr t) → assoc "payload" ps = Some p →
     onMessage this data false
     = Ok [(mqttBaseTopic this ++ "/" ++ t, stringify p)]) ∧
  onMessage this (bt "{`topic`: `t`, `payload`: {`a`:1}}") false
  = Ok [(mqttBaseTopic this ++ "/t", bt "{`a`:1}")] ∧
  onMessage this
    (bt "{`topic`: `t`, `payload`: {`brightness`: 100.0, `a`: [1e21, 0.10, -0, 1e400, `\ud83d\ude00`]}}")
    false
  = Ok [(mqttBaseTopic this ++ "/t",
         bt "{`a`:[1e+21,0.1,0,null,`😀`],`brightness`:100}")].
Proof.
  assert (H : ∀ data ps t p,
     well_formed data = true →
     JSON_parse data = Some (JObj ps) →
     assoc "topic" ps = Some (JStr t) → assoc "payload" ps = Some p →
     onMessage this data false
     = Ok [(mqttBaseTopic this ++ "/" ++ t, stringify p)]).
  { intros data ps t p _ Hparse Ht Hp. unfold onMessage. simpl.
    rewrite Hparse. unfold destructure. by rewrite Ht, Hp. }
  split; [ exact H | ]. split.
  - set (p := JObj [("a", JNum (Double 1 0))]).
    assert (E : stringify p = bt "{`a`:1}") by (vm_compute; reflexivity).
    rewrite (H _ [("topic", JStr "t"); ("payload", p)] "t" p);
      [ | vm_compute; reflexivity | vm_compute; reflexivity | done | done ].
    rewrite E. reflexivity.
  - set (p := JObj [("brightness", JNum (Double 25 2));
                    ("a", JArr [JNum (Double 476837158203125 21);
                                JNum (Double 3602879701896397 (-55));
                                JNum (Double 0 0); JNum (Inf false);
                                JStr "😀"])]).
    assert (E : stringify p
                = bt "{`a`:[1e+21,0.1,0,null,`😀`],`brightness`:100}")
      by (vm_compute; reflexivity).
    rewrite (H _ [("topic", JStr "t"); ("payload", p)] "t" p);
      [ | vm_compute; reflexivity | vm_compute; reflexivity | done | done ].
    rewrite E. reflexivity.
Qed.

(** C10. A non-binary client message whose text is not JSON makes the
    listener throw the [SyntaxError] of [JSON.parse]; nothing is handed
    to the bus transport. *)
Theorem malformed_client_message_throws this data :
  JSON_parse data = None →
  (∃ m, onMessage this data false = Throw (SyntaxError m)) ∧
  published (onMessage this data false) = [].
Proof.
  intros Hparse. unfold onMessage. simpl. rewrite Hparse.
  split; [ by eexists | done ].
Qed.

(** ** The properties on concrete messages *)

Lemma upgrade_authorization_witness :
  auth_token Examples.frontend = Some "secret"
  ∧ onUpgrade Examples.frontend (QString "Secret") fresh
    = mkWebSocket [] [] (Some (4401%Z, "Unauthorized"))
  ∧ onUpgrade Examples.frontend QUndefined fresh
    = mkWebSocket [] [] (Some (4401%Z, "Unauthorized"))
  ∧ auth_token Examples.open_frontend = None
  ∧ onUpgrade Examples.open_frontend (QString "anything") fresh
    = onWebSocketConnection Examples.open_frontend fresh.
Proof.
  assert (H : auth_token Examples.frontend = Some "secret") by reflexivity.
  assert (Hn : auth_token Examples.open_frontend = None) by reflexivity.
  split; [ exact H | ].
  destruct (upgrade_authorization Examples.frontend (QString "Secret") fresh)
    as [H1 _].
  destruct (upgrade_authorization Examples.frontend QUndefined fresh)
    as [H2 _].
  destruct (upgrade_authorization Examples.open_frontend (QString "anything")
              fresh) as [_ H3].
  destruct (H1 "secret" H ltac:(discriminate) ltac:(discriminate)) as [E1 _].
  destruct (H2 "secret" H ltac:(discriminate) ltac:(discriminate)) as [E2 _].
  split; [ rewrite E1; reflexivity | ].
  split; [ rewrite E2; reflexivity | ].
  split; [ exact Hn | exact (H3 Hn) ].
Defined.

Lemma client_message_is_published_witness :
  well_formed
    (bt "{`payload`: [true, {`b`: 2.50, `a`: null}, 12e-1], `topic`: `lamp/set`}")
  = true
  ∧ JSON_parse
      (bt "{`payload`: [true, {`b`: 2.50, `a`: null}, 12e-1], `topic`: `lamp/set`}")
    = Some (JObj [("payload", JArr [JBool true;
                                    JObj [("b", JNum (Double 5 (-1)));
                                          ("a", JNull)];
                                    JNum (Double 5404319552844595 (-52))]);
                  ("topic", JStr "lamp/set")])
  ∧ onMessage Examples.frontend
      (bt "{`payload`: [true, {`b`: 2.50, `a`: null}, 12e-1], `topic`: `lamp/set`}")
      false
    = Ok [("zigbee2mqtt/lamp/set", bt "[true,{`a`:null,`b`:2.5},1.2]")]
  ∧ onMessage Examples.frontend
      (bt "{`topic`: `t`, `payload`: {`～`: `\ud83d`, `😀`: 9007199254740993, `é`: 5e-324}}")
      false
    = Ok [("zigbee2mqtt/t",
           bt "{`é`:5e-324,`😀`:9007199254740992,`～`:`\ud83d`}")].
Proof.
  assert (W : well_formed
                (bt "{`payload`: [true, {`b`: 2.50, `a`: null}, 12e-1], `topic`: `lamp/set`}")
              = true) by (vm_compute; reflexivity).
  assert (H : JSON_parse
                (bt "{`payload`: [true, {`b`: 2.50, `a`: null}, 12e-1], `topic`: `lamp/set`}")
              = Some (JObj [("payload", JArr [JBool true;
                                              JObj [("b", JNum (Double 5 (-1)));
                                                    ("a", JNull)];
                                              JNum (Double 5404319552844595 (-52))]);
                            ("topic", JStr "lamp/set")]))
    by (vm_compute; reflexivity).
  split; [ exact W | ]. split; [ exact H | ].
  destruct (client_message_is_published Examples.frontend) as [H1 _].
  split.
  - rewrite (H1 _ _ "lamp/set" _ W H eq_refl eq_refl). vm_compute. reflexivity.
  - assert (H' : ∃ ps p,
      well_formed
        (bt "{`topic`: `t`, `payload`: {`～`: `\ud83d`, `😀`: 9007199254740993, `é`: 5e-324}}")
      = true
      ∧ JSON_parse
          (bt "{`topic`: `t`, `payload`: {`～`: `\ud83d`, `😀`: 9007199254740993, `é`: 5e-324}}")
        = Some (JObj ps)
      ∧ assoc "topic" ps = Some (JStr "t") ∧ assoc "payload" ps = Some p
      ∧ stringify p = bt "{`é`:5e-324,`😀`:9007199254740992,`～`:`\ud83d`}").
    { eexists. eexists. split; [ vm_compute; reflexivity | ].
      split; [ vm_compute; reflexivity | ].
      split; [ reflexivity | ]. split; [ reflexivity | ].
      vm_compute. reflexivity. }
    destruct H' as (ps & p & Hw & Hparse & Ht & Hp & Hs).
    rewrite (H1 _ ps "t" p Hw Hparse Ht Hp), Hs. reflexivity.
Defined.

Lemma malformed_client_message_throws_witness :
  JSON_parse (bt "{`topic`: `t`, `payload`: ") = None
  ∧ (∃ m, onMessage Examples.frontend (bt "{`topic`: `t`, `payload`: ") false
          = Throw (SyntaxError m))
  ∧ published (onMessage Examples.frontend (bt "{`topic`: `t`, `payload`: ") false)
    = [].
Proof.
  assert (H : JSON_parse (bt "{`topic`: `t`, `payload`: ") = None)
    by (vm_compute; reflexivity).
  split; [ exact H | ].
  exact (malformed_client_message_throws Examples.frontend _ H).
Defined.

End FrontendProperties.

(* ===================================================================== *)
(** * Further properties of the Configure extension *)
(* ===================================================================== *)

Section ConfigureBehaviour.

Lemma request_answered_once_witness :
  msg_topic Examples.lamp_request = topic Examples.fresh_state
  ∧ (∃ st' effs p,
      onMQTTMessage Examples.zigbee Examples.fresh_state Examples.lamp_request
      = (st', effs, Suspended p)
      ∧ responses effs = []
      ∧ ∀ st2 r st3 effs3,
          settle st2 p r = (st3, effs3) →
          length (responses effs3) = 1%nat ∧ ∀ e, Unhandled e ∉ effs3)
  ∧ onMQTTMessage Examples.zigbee Examples.fresh_state
      Examples.unconvertible_request
    = (Examples.fresh_state, [],
       Threw (TypeError "Cannot convert object to primitive value"))
  ∧ ToString (JObj [("toString", JNum (Double 1 0))])
    = inl (TypeError "Cannot convert object to primitive value").
Proof.
  assert (H1 : msg_topic Examples.lamp_request = topic Examples.fresh_state)
    by reflexivity.
  split; [ exact H1 | ]. split; [ | split; [ | reflexivity ] ].
  - destruct (onMQTTMessage Examples.zigbee Examples.fresh_state
                Examples.lamp_request) as [[st' effs] out] eqn:E.
    pose proof (request_answered_once _ _ _ _ _ _ H1 E) as H.
    assert (Hout : ∃ p, out = Suspended p).
    { vm_compute in E. injection E as _ _ <-. eexists. reflexivity. }
    destruct Hout as [p ->]. exists st', effs, p.
    split; [ reflexivity | exact H ].
  - destruct (onMQTTMessage Examples.zigbee Examples.fresh_state
                Examples.unconvertible_request) as [[st' effs] out] eqn:E.
    pose proof (request_answered_once Examples.zigbee Examples.fresh_state
                  Examples.unconvertible_request _ _ _ eq_refl E) as H.
    assert (Hout : out = Threw (TypeError "Cannot convert object to primitive value")).
    { vm_compute in E. injection E as _ _ <-. reflexivity. }
    subst out. destruct H as (-> & -> & _). reflexivity.
Defined.

(** A request for a device that has an attempt in flight is answered at
    once, without an error and without a call of the routine: the forced
    call of [configure] returns at the in-flight gate, and the handler
    takes that for a success. *)
Theorem busy_request_answered_ok zigbee st data id device :
  msg_topic data = topic st →
  request_ID (parseJSON (msg_message data) (msg_message data))
  = inr (Some id) →
  resolveEntity zigbee id = Some (EDevice device) →
  has_configure device = true →
  ieeeAddr device ∈ configuring st →
  onMQTTMessage zigbee st data
  = (st,
     [respond (parseJSON (msg_message data) (msg_message data)) (Some id) None],
     Returned).
Proof.
  intros Ht Hid Hres Hh Hin. unfold onMQTTMessage.
  rewrite Ht, String.eqb_refl, Hid, Hres.
  unfold has_configure in Hh.
  destruct (definition device) as [[c k]|] eqn:Hd; [ | done ].
  simpl in Hh. subst c.
  by rewrite configure_in_flight.
Qed.

Lemma busy_request_answered_ok_witness :
  ieeeAddr Examples.lamp ∈ configuring (state Examples.lamp_in_flight)
  ∧ onMQTTMessage Examples.zigbee (state Examples.lamp_in_flight)
      Examples.lamp_request
    = (state Examples.lamp_in_flight,
       [respond (JStr "lamp") (Some (JStr "lamp")) None],
       Returned).
Proof.
  assert (Hin : ieeeAddr Examples.lamp
                ∈ configuring (state Examples.lamp_in_flight)).
  { apply (bool_decide_unpack _). vm_compute. exact I. }
  split; [ exact Hin | ].
  apply (busy_request_answered_ok Examples.zigbee _ Examples.lamp_request
           (JStr "lamp") Examples.lamp); [ reflexivity .. | exact Hin ].
Defined.

(** When the routine of an attempt succeeds, the device gets the key of
    its definition as marker and is saved with it, [devicesChanged] is
    emitted once, the counters are left as they are and the flag is
    cleared; from then on every non-forced call for that device
    returns. *)
Theorem success_marks_device st p st' effs :
  settle st p Fulfilled = (st', effs) →
  zh_configured st' !! p_ieee p
  = Some (def_configureKey (att_definition (p_attempt p))) ∧
  ZhSave (p_ieee p) (Some (def_configureKey (att_definition (p_attempt p))))
  ∈ effs ∧
  devices_changed effs = 1%nat ∧
  attempts st' = attempts st ∧
  (p_ieee p ∉ configuring st') ∧
  (∀ device event throwError,
     ieeeAddr device = p_ieee p →
     configure st' device event false throwError = (st', [], None)).
Proof.
  intros Hs.
  assert (Hm : zh_configured st' !! p_ieee p
               = Some (def_configureKey (att_definition (p_attempt p)))).
  { apply settle_state in Hs as (_ & _ & -> & _). apply lookup_insert_eq. }
  split; [ exact Hm | ].
  pose proof Hs as Hst. apply settle_state in Hst as (Hc & Ha & _).
  unfold settle, configure_resume in Hs.
  injection Hs as <- <-.
  split; [ | split; [ | split; [ | split ] ] ].
  - apply elem_of_cons. right. apply elem_of_cons. by left.
  - unfold devices_changed. simpl. by destruct (p_then p).
  - done.
  - simpl. set_solver.
  - intros device event throwError Hd. apply configure_marked.
    rewrite Hd. simpl. unfold p_ieee. by rewrite lookup_insert_eq.
Qed.

Lemma success_marks_device_witness :
  ∃ p st' effs,
    pending Examples.lamp_in_flight !! 0%nat = Some p
    ∧ settle (state Examples.lamp_in_flight) p Fulfilled = (st', effs)
    ∧ zh_configured st' !! "0x00124b0001" = Some 42%Z
    ∧ devices_changed effs = 1%nat
    ∧ configure st' Examples.lamp zigbee_event false false = (st', [], None).
Proof.
  destruct (pending Examples.lamp_in_flight !! 0%nat) as [p|] eqn:Hp;
    [ | vm_compute in Hp; discriminate Hp ].
  destruct (settle (state Examples.lamp_in_flight) p Fulfilled)
    as [st' effs] eqn:Hs.
  exists p, st', effs. split; [ reflexivity | ]. split; [ exact Hs | ].
  destruct (success_marks_device _ _ _ _ Hs) as (Hm & _ & Hd & _ & _ & Hi).
  vm_compute in Hp. injection Hp as <-.
  split; [ exact Hm | ]. split; [ exact Hd | ].
  apply Hi. reflexivity.
Defined.

Lemma handle_suspended_targets st t st' effs p :
  handle st t = (st', effs, Suspended p) →
  targets st t (att_device (p_attempt p)).
Proof.
  assert (Hdet : ∀ st0 device event st2 effs2,
    detached (configure st0 device event false false)
    = (st2, effs2, Suspended p) →
    device = att_device (p_attempt p)).
  { intros st0 device event st2 effs2 H. apply detached_configure in H
      as [(? & _)|(att & [= ->] & <- & _)]; done. }
  assert (Hclr : ∀ device event,
    (let (st1, effs1) := clear_configured st device in
     let '(st2, effs2, out) :=
       detached (configure st1 device event false false) in
     (st2, (effs1 ++ effs2)%list, out)) = (st', effs, Suspended p) →
    device = att_device (p_attempt p)).
  { intros device event.
    destruct (clear_configured st device) as [st1 effs1].
    destruct (detached (configure st1 device event false false))
      as [[st2 effs2] out2] eqn:H2.
    intros [= <- <- ->]. by eapply Hdet. }
  destruct t as [d|d|d|d|d|z data]; simpl.
  - unfold start_sweep. destruct (zh_type d); try done. apply Hdet.
  - apply Hclr.
  - apply Hdet.
  - apply Hdet.
  - apply Hclr.
  - unfold onMQTTMessage.
    destruct (String.eqb _ _) eqn:Ht; [ | done ].
    apply String.eqb_eq in Ht.
    destruct (request_ID _) as [e|[id|]] eqn:Hid; try done.
    destruct (resolveEntity z id) as [[device|g]|] eqn:Hres;
      try (by destruct (ToString id)).
    destruct (definition device) as [[[] k]|]; try done.
    destruct (configure st device mqtt_message true true)
      as [[st2 effs2] [att|]] eqn:Hc; [ | done ].
    intros [= <- <- <-]. simpl.
    apply configure_suspends in Hc as (-> & _).
    split; [ done | ]. by exists id.
Qed.

(** A step that is not about device [a] (neither a trigger about a
    device of that address nor the settlement of one of its attempts)
    leaves the flag, the counter and the marker of [a] as they were and
    does not call its routine. *)
Theorem other_devices_untouched s l s' effs a :
  step s l = Some (s', effs) → ¬ concerns s l a →
  (a ∈ configuring (state s') ↔ a ∈ configuring (state s)) ∧
  attempts (state s') !! a = attempts (state s) !! a ∧
  zh_configured (state s') !! a = zh_configured (state s) !! a ∧
  ¬ invoked a effs.
Proof.
  destruct l as [t|i r]; simpl.
  - destruct (handle (state s) t) as [[st' effs'] out] eqn:Hh.
    intros Hstep Hnot.
    assert (Hm : zh_configured st' !! a = zh_configured (state s) !! a).
    { eapply handle_marker_kept; [ | exact Hh ].
      destruct t as [d|d|d|d|d|z data]; simpl; try tauto;
        intros Hd; apply Hnot; by exists d. }
    pose proof (handle_handled _ _ _ _ _ Hh) as H. unfold handled in H.
    destruct out as [ | e | p ]; injection Hstep as <- <-; simpl.
    + destruct H as [(-> & -> & _) Hn]. by repeat split.
    + destruct H as [(-> & -> & _) Hn]. repeat split; try done.
      intros [?|Hu]%invoked_app; [ by apply (Hn a) | ].
      unfold invoked in Hu. by apply list_elem_of_singleton in Hu.
    + destruct H as ((_ & -> & -> & _) & _ & Hi).
      assert (Hne : p_ieee p ≠ a).
      { intros Heq. apply Hnot. exists (att_device (p_attempt p)).
        split; [ by eapply handle_suspended_targets | exact Heq ]. }
      split; [ set_solver | ]. split; [ | split; [ done | ] ].
      * destruct (attempts (state s) !! p_ieee p); [ done | ].
        by rewrite lookup_insert_ne.
      * intros Hin%Hi. by subst a.
  - destruct (pending s !! i) as [p|] eqn:Hp; [ | done ].
    destruct (settle (state s) p r) as [st' effs'] eqn:Hs.
    intros [= <- <-] Hnot. simpl.
    assert (Hne : p_ieee p ≠ a) by (intros Heq; apply Hnot; by exists p).
    apply settle_state in Hs as (-> & -> & -> & _ & Hn).
    split; [ set_solver | ]. split; [ | split; [ | apply Hn ] ].
    + destruct r; [ done | ]. rewrite increment_lookup.
      by destruct (decide (p_ieee p = a)).
    + destruct r; [ | done ]. by rewrite lookup_insert_ne.
Qed.

Lemma other_devices_untouched_witness :
  ∃ s' effs,
    step Examples.lamp_in_flight (Settle 0 (Rejected Examples.boom))
    = Some (s', effs)
    ∧ ¬ concerns Examples.lamp_in_flight (Settle 0 (Rejected Examples.boom))
          "0x00124b0002"
    ∧ attempts (state s') !! "0x00124b0002" = None
    ∧ ¬ invoked "0x00124b0002" effs.
Proof.
  destruct (step Examples.lamp_in_flight (Settle 0 (Rejected Examples.boom)))
    as [[s' effs]|] eqn:Hs; [ | vm_compute in Hs; discriminate Hs ].
  exists s', effs. split; [ reflexivity | ].
  assert (Hnot : ¬ concerns Examples.lamp_in_flight
                     (Settle 0 (Rejected Examples.boom)) "0x00124b0002").
  { intros (p & Hp & Ha). vm_compute in Hp. injection Hp as <-.
    vm_compute in Ha. discriminate Ha. }
  split; [ exact Hnot | ].
  destruct (other_devices_untouched _ _ _ _ "0x00124b0002" Hs Hnot)
    as (_ & Ha & _ & Hi).
  split; [ rewrite Ha; vm_compute; reflexivity | exact Hi ].
Defined.

(** The counter of a device never goes down: along any continuation of
    any run from the initial state it is at least what it was. *)
Theorem attempt_count_never_decreases base markers tr1 tr2 s1 effs1 s2 effs2 a :
  run (init base markers) tr1 = Some (s1, effs1) →
  run s1 tr2 = Some (s2, effs2) →
  (attempt_count (state s1) a ≤ attempt_count (state s2) a)%Z.
Proof.
  intros H1 H2. apply reachable_Inv in H1.
  rewrite (run_attempt_count tr2 _ _ _ a H1 H2). lia.
Qed.

Lemma attempt_count_never_decreases_witness :
  ∃ s1 effs1 s2 effs2,
    run (init Examples.base_topic ∅) (take 4 Examples.busy_trace)
    = Some (s1, effs1)
    ∧ run s1 (drop 4 Examples.busy_trace) = Some (s2, effs2)
    ∧ attempt_count (state s1) "0x00124b0001" = 1%Z
    ∧ (attempt_count (state s1) "0x00124b0001"
       ≤ attempt_count (state s2) "0x00124b0001")%Z.
Proof.
  destruct (run (init Examples.base_topic ∅) (take 4 Examples.busy_trace))
    as [[s1 effs1]|] eqn:H1; [ | vm_compute in H1; discriminate H1 ].
  destruct (run s1 (drop 4 Examples.busy_trace))
    as [[s2 effs2]|] eqn:H2.
  - exists s1, effs1, s2, effs2. split; [ reflexivity | ].
    split; [ exact H2 | ].
    split; [ | exact (attempt_count_never_decreases _ _ _ _ _ _ _ _
                        "0x00124b0001" H1 H2) ].
    clear H2. vm_compute in H1. injection H1 as <- _. vm_compute. reflexivity.
  - exfalso. vm_compute in H1. injection H1 as <- _.
    vm_compute in H2. discriminate H2.
Defined.

Lemma configure_end_device st device event throwError :
  zh_type device = EndDevice → event ≠ zigbee_event →
  configure st device event false throwError = (st, [], None).
Proof.
  intros Hty Hev.
  destruct (configure_cases st device event false throwError)
    as [ ? | (def & _ & _ & [ ? | He ] & _) ]; [ done | done | ].
  unfold eligible in He. rewrite Hty in He.
  destruct (_ || _); [ done | ].
  destruct (zh_configured st !! ieeeAddr device); [ done | ].
  by destruct event.
Qed.

(** The routine of a sleepy end device is called by no start-up sweep
    and by no reconfigure request: both handlers return, and the
    extension's fields stay as they were.  The reconfigure request has
    all the same deleted the marker of the device. *)
Theorem end_device_waits_for_zigbee_event st device :
  zh_type device = EndDevice →
  start_sweep st device = (st, [], Returned) ∧
  ∃ st' effs,
    onReconfigure st device = (st', effs, Returned) ∧
    bookkeeping_kept st st' ∧
    (∀ b, ¬ invoked b effs) ∧
    zh_configured st' !! ieeeAddr device = None.
Proof.
  intros Hty. split; [ unfold start_sweep; by rewrite Hty | ].
  unfold onReconfigure.
  destruct (clear_configured st device) as [st1 effs1] eqn:H1.
  unfold detached. rewrite configure_end_device by done.
  exists st1, (effs1 ++ [])%list. split; [ done | ].
  destruct (clear_configured_marker _ _ _ _ (ieeeAddr device) H1) as [Hm _].
  apply clear_configured_kept in H1 as [Hk Hn].
  split; [ done | ]. split; [ | done ].
  intros b. rewrite app_nil_r. apply Hn.
Qed.

(** Once a device has failed three times, a reconfigure request (and
    likewise a join) only takes its marker away: the handler deletes
    the marker, saves the device, and returns at the ceiling without
    calling the routine. *)
Theorem reconfigure_at_ceiling_only_unmarks st device n k :
  attempts st !! ieeeAddr device = Some (Finite n) → (3 ≤ n)%Z →
  zh_configured st !! ieeeAddr device = Some k →
  onReconfigure st device
  = (set_zh_configured (delete (ieeeAddr device)) st,
     [ZhSave (ieeeAddr device) None], Returned) ∧
  onDeviceJoined st device
  = (set_zh_configured (delete (ieeeAddr device)) st,
     [ZhSave (ieeeAddr device) None], Returned) ∧
  zh_configured (set_zh_configured (delete (ieeeAddr device)) st)
  !! ieeeAddr device = None.
Proof.
  intros Ha Hn Hk.
  assert (Hge : attempts_ge_3 (set_zh_configured (delete (ieeeAddr device)) st)
                  (ieeeAddr device) = true).
  { unfold attempts_ge_3. simpl. rewrite Ha. by apply Z.leb_le. }
  unfold onReconfigure, onDeviceJoined, clear_configured, detached.
  rewrite Hk, !configure_ceiling by done.
  split; [ done | ]. split; [ done | ]. simpl. apply lookup_delete_eq.
Qed.

Lemma reconfigure_at_ceiling_only_unmarks_witness :
  attempts (set_zh_configured (fun _ => {[ "0x00124b0001" := 42%Z ]})
              Examples.exhausted) !! ieeeAddr Examples.lamp
  = Some (Finite 3)
  ∧ ∃ st',
      onReconfigure
        (set_zh_configured (fun _ => {[ "0x00124b0001" := 42%Z ]})
           Examples.exhausted) Examples.lamp
      = (st', [ZhSave "0x00124b0001" None], Returned)
      ∧ zh_configured st' !! "0x00124b0001" = None.
Proof.
  assert (Ha : attempts (set_zh_configured
                           (fun _ => {[ "0x00124b0001" := 42%Z ]})
                           Examples.exhausted) !! ieeeAddr Examples.lamp
               = Some (Finite 3)) by (vm_compute; reflexivity).
  split; [ exact Ha | ].
  destruct (reconfigure_at_ceiling_only_unmarks _ Examples.lamp 3 42 Ha
              ltac:(lia) ltac:(vm_compute; reflexivity)) as (Hr & _ & Hm).
  eexists. split; [ exact Hr | exact Hm ].
Defined.

Lemma end_device_waits_for_zigbee_event_witness :
  zh_type Examples.sensor = EndDevice
  ∧ zh_configured Examples.sensor_marked !! ieeeAddr Examples.sensor = Some 7%Z
  ∧ ∃ st' effs,
      onReconfigure Examples.sensor_marked Examples.sensor
      = (st', effs, Returned)
      ∧ (∀ b, ¬ invoked b effs)
      ∧ zh_configured st' !! ieeeAddr Examples.sensor = None.
Proof.
  assert (H : zh_type Examples.sensor = EndDevice) by reflexivity.
  split; [ exact H | ]. split; [ vm_compute; reflexivity | ].
  destruct (end_device_waits_for_zigbee_event Examples.sensor_marked _ H)
    as (_ & st' & effs & E & _ & Hn & Hm).
  exists st', effs. split; [ exact E | ]. split; [ exact Hn | exact Hm ].
Defined.

(** The first configuration of an eligible router (it has a routine, is
    enabled and interviewed, has no marker, no attempt in flight and
    fewer than three failures): any non-forced trigger calls its
    routine once, and when the routine succeeds the device is marked
    and saved and [devicesChanged] is emitted once; the attempt is
    over, and nothing else of the system has changed. *)
Theorem eligible_router_is_configured s device def t :
  definition device = Some def → def_configure def = true →
  options_disabled device = false → interviewed device = true →
  zh_type device = Router →
  zh_configured (state s) !! ieeeAddr device = None →
  ieeeAddr device ∉ configuring (state s) →
  attempts_ge_3 (state s) (ieeeAddr device) = false →
  non_forced t device →
  ∃ s',
    run s [Fire t; Settle (length (pending s)) Fulfilled]
    = Some (s',
            [LoggerInfo ("Configuring '" ++ name device ++ "'");
             DefinitionConfigure (ieeeAddr device);
             LoggerInfo ("Successfully configured '" ++ name device ++ "'");
             ZhSave (ieeeAddr device) (Some (def_configureKey def));
             EmitDevicesChanged]) ∧
    pending s' = pending s ∧
    configuring (state s') = configuring (state s) ∧
    zh_configured (state s')
    = <[ieeeAddr device := def_configureKey def]> (zh_configured (state s)) ∧
    attempt_count (state s') (ieeeAddr device)
    = attempt_count (state s) (ieeeAddr device).
Proof.
  intros Hd Hc Hdis Hint Hty Hm Hin Hge Ht.
  assert (Hconf : ∀ event,
    configure (state s) device event false false
    = configure_start (state s) device def false).
  { intros event. unfold configure, eligible, gate_closed.
    rewrite Hd, Hc, Hdis, Hint, Hm, Hty, Hge.
    rewrite bool_decide_eq_false_2 by done. by destruct event. }
  assert (Hclr : clear_configured (state s) device = (state s, []))
    by (unfold clear_configured; by rewrite Hm).
  assert (Hh : handle (state s) t
               = detached (configure_start (state s) device def false)).
  { destruct t as [d|d|d|d|d|z data]; simpl in Ht; [ subst d .. | done ];
      simpl; unfold start_sweep, onDeviceJoined, onDeviceInterview,
               onLastSeenChanged, onReconfigure;
      rewrite ?Hty, ?Hclr, ?Hconf; try done;
      by destruct (detached _) as [[? ?] ?]. }
  eexists. split.
  - unfold run, step. rewrite Hh. unfold configure_start, detached.
    cbn [state pending].
    rewrite lookup_app_r by done. rewrite Nat.sub_diag. cbn [lookup list_lookup].
    unfold settle, configure_resume. cbn.
    reflexivity.
  - cbn [state pending]. split.
    + rewrite delete_take_drop, take_app_length.
      rewrite drop_app_ge by lia.
      replace (S (length (pending s)) - length (pending s))%nat with 1%nat by lia.
      simpl. by rewrite app_nil_r.
    + split; [ | split ].
      * cbn. destruct (attempts (state s) !! ieeeAddr device); cbn; set_solver.
      * cbn. by destruct (attempts (state s) !! ieeeAddr device).
      * unfold attempt_count. cbn.
        destruct (attempts (state s) !! ieeeAddr device) eqn:E; cbn;
          [ by rewrite E | by rewrite lookup_insert_eq ].
Qed.

Lemma eligible_router_is_configured_witness :
  ∃ s',
    run (init Examples.base_topic ∅)
      [Fire (Sweep Examples.lamp); Settle 0 Fulfilled]
    = Some (s',
            [LoggerInfo "Configuring 'lamp'";
             DefinitionConfigure "0x00124b0001";
             LoggerInfo "Successfully configured 'lamp'";
             ZhSave "0x00124b0001" (Some 42%Z);
             EmitDevicesChanged])
    ∧ pending s' = []
    ∧ zh_configured (state s') !! "0x00124b0001" = Some 42%Z.
Proof.
  destruct (eligible_router_is_configured (init Examples.base_topic ∅)
              Examples.lamp (mkDefinition true 42) (Sweep Examples.lamp))
    as (s' & Hr & Hp & _ & Hz & _); try reflexivity.
  - vm_compute. intros H. inversion H.
  - exists s'. split; [ exact Hr | ]. split; [ exact Hp | ].
    rewrite Hz. apply lookup_insert_eq.
Defined.

End ConfigureBehaviour.

(* ===================================================================== *)
(** * Further properties of the Frontend extension *)
(* ===================================================================== *)

Module FrontendGateway.
Import JS Utils Frontend.

(** ** Strings *)

Lemma append_cons c (s t : string) : String c s ++ t = String c (s ++ t).
Proof. reflexivity. Qed.

Lemma length_append (s t : string) :
  String.length (s ++ t) = (String.length s + String.length t)%nat.
Proof. induction s as [|c s IH]; [ done | ]. rewrite append_cons. simpl. by rewrite IH. Qed.

Lemma append_assoc (s t u : string) : (s ++ t) ++ u = s ++ t ++ u.
Proof. induction s as [|c s IH]; [ done | ]. rewrite !append_cons. by rewrite IH. Qed.

Lemma prefix_append (p t : string) : String.prefix p (p ++ t) = true.
Proof.
  induction p as [|c p IH]; [ by destruct t | ].
  rewrite append_cons. simpl. destruct (ascii_dec c c); done.
Qed.

Lemma prefix_cons a (s1 : string) b (s2 : string) :
  String.prefix (String a s1) (String b s2)
  = if ascii_dec a b then String.prefix s1 s2 else false.
Proof. reflexivity. Qed.

Lemma substring_all (t : string) m :
  (String.length t ≤ m)%nat → String.substring 0 m t = t.
Proof.
  revert m. induction t as [|c t IH]; intros m Hm.
  - by destruct m.
  - destruct m as [|m]; simpl in *; [ lia | ]. rewrite IH; [ done | lia ].
Qed.

Lemma substring_append (p t : string) m :
  (String.length t ≤ m)%nat →
  String.substring (String.length p) m (p ++ t) = t.
Proof.
  intros Hm. induction p as [|c p IH]; [ by apply substring_all | ].
  rewrite append_cons. simpl. exact IH.
Qed.

(** The text after the base topic and its slash. *)
Lemma strip_base (base t : string) :
  String.substring (String.length base + 1)
    (String.length (base ++ "/" ++ t)) (base ++ "/" ++ t) = t.
Proof.
  rewrite <- append_assoc.
  replace (String.length base + 1)%nat with (String.length (base ++ "/"))
    by (rewrite length_append; reflexivity).
  apply substring_append. rewrite length_append. lia.
Qed.


(** ** Replay on connection *)

Lemma foldl_send_sent {A} (g : A → string) (l : list A) ws :
  ws_sent (foldl (fun w x => ws_send (g x) w) ws l)
  = (ws_sent ws ++ map g l)%list.
Proof.
  revert ws. induction l as [|x l IH]; intros ws; simpl.
  - by rewrite app_nil_r.
  - rewrite IH. simpl. by rewrite <- app_assoc.
Qed.

Lemma foldl_replay_sent {A} (f : A → list string) (l : list A) ws :
  ws_sent (foldl (fun w x => foldl (fun w' m => ws_send m w') w (f x)) ws l)
  = (ws_sent ws ++ concat (map f l))%list.
Proof.
  revert ws. induction l as [|x l IH]; intros ws; simpl.
  - by rewrite app_nil_r.
  - rewrite IH, (foldl_send_sent (fun m => m)), map_id. by rewrite <- app_assoc.
Qed.

Lemma foldl_send_closed {A} (g : A → string) (l : list A) ws :
  ws_closed (foldl (fun w x => ws_send (g x) w) ws l) = ws_closed ws.
Proof.
  revert ws. induction l as [|x l IH]; intros ws; simpl; [ done | ].
  by rewrite IH.
Qed.

Lemma foldl_replay_closed {A} (f : A → list string) (l : list A) ws :
  ws_closed (foldl (fun w x => foldl (fun w' m => ws_send m w') w (f x)) ws l)
  = ws_closed ws.
Proof.
  revert ws. induction l as [|x l IH]; intros ws; simpl; [ done | ].
  rewrite IH. apply (foldl_send_closed (fun m => m)).
Qed.

(** On connection the socket is sent, after what it was sent before,
    the retained messages under the base topic in their order and then
    one message per device in their order, and nothing else; the
    handler does not close the socket. *)
Theorem connection_replays_in_order this ws :
  ws_sent (onWebSocketConnection this ws)
  = (ws_sent ws
     ++ concat (map (replay_retained this) (retainedMessages this))
     ++ map (replay_device this) (devices this))%list
  ∧ ws_closed (onWebSocketConnection this ws) = ws_closed ws.
Proof.
  unfold onWebSocketConnection. split.
  - rewrite foldl_send_sent, foldl_replay_sent. simpl. by rewrite <- app_assoc.
  - by rewrite foldl_send_closed, foldl_replay_closed.
Qed.

(** A retained message whose topic is the base topic, a slash and [t]
    is replayed once, under the topic [t], with its payload decoded if
    it is JSON and as a string if not; so a retained state of the lamp
    is replayed with its keys in order and its numbers as the doubles
    they denote are printed, and a retained text that is not JSON as a
    JSON string. *)
Theorem retained_replay_strips_namespace this t payload :
  replay_retained this (mqttBaseTopic this ++ "/" ++ t, payload)
  = [stringify (JObj [("topic", JStr t);
                      ("payload", parseJSON payload payload)])]
  ∧ replay_retained this
      (mqttBaseTopic this ++ "/lamp",
       bt "{`state`: `ON`, `brightness`: 100.0, `power`: 2.50e-1}")
    = [bt "{`payload`:{`brightness`:100,`power`:0.25,`state`:`ON`},`topic`:`lamp`}"]
  ∧ replay_retained this (mqttBaseTopic this ++ "/lamp/availability", "online")
    = [bt "{`payload`:`online`,`topic`:`lamp/availability`}"].
Proof.
  assert (H : ∀ t payload,
    replay_retained this (mqttBaseTopic this ++ "/" ++ t, payload)
    = [stringify (JObj [("topic", JStr t);
                        ("payload", parseJSON payload payload)])]).
  { intros t0 payload0. unfold replay_retained.
    rewrite <- append_assoc, prefix_append, append_assoc.
    by rewrite strip_base. }
  split; [ apply H | ]. split.
  - change (mqttBaseTopic this ++ "/lamp")
      with (mqttBaseTopic this ++ "/" ++ "lamp").
    rewrite H. vm_compute. reflexivity.
  - change (mqttBaseTopic this ++ "/lamp/availability")
      with (mqttBaseTopic this ++ "/" ++ "lamp/availability").
    rewrite H. vm_compute. reflexivity.
Qed.

(** ** The bus-to-client bridge *)

Lemma lookup_map {A B} (f : A → B) (l : list A) i :
  map f l !! i = f <$> l !! i.
Proof.
  revert i. induction l as [|x l IH]; intros [|i]; simpl; try done.
Qed.

(** A publish event reaches the clients that are open, one message
    each, and only if it is forwarded at all; a client that is not
    open, and every client when the event is dropped, is left as it
    was.  No client is added, removed or reordered. *)
Theorem broadcast_only_to_open_clients this data clients :
  length (onMQTTPublishMessageOrEntityState this data clients)
  = length clients ∧
  ∀ i c, clients !! i = Some c →
    ∃ c', onMQTTPublishMessageOrEntityState this data clients !! i = Some c' ∧
      readyState c' = readyState c ∧
      client_terminated c' = client_terminated c ∧
      ws_listeners (client_ws c') = ws_listeners (client_ws c) ∧
      ws_closed (client_ws c') = ws_closed (client_ws c) ∧
      ws_sent (client_ws c')
      = match forwarded this data, readyState c with
        | Some (topic, payload), OPEN =>
            (ws_sent (client_ws c)
             ++ [stringify (JObj [("topic", topic); ("payload", payload)])])%list
        | _, _ => ws_sent (client_ws c)
        end.
Proof.
  unfold onMQTTPublishMessageOrEntityState.
  destruct (forwarded this data) as [[topic payload]|].
  - split; [ apply length_map | ].
    intros i c Hc. rewrite lookup_map, Hc. simpl. eexists. split; [ done | ].
    destruct (readyState c) eqn:E; simpl; rewrite ?E; done.
  - split; [ done | ]. intros i c Hc. exists c. by destruct (readyState c).
Qed.

(** The topic a client publishes on comes back to the clients: what the
    client-to-bus bridge hands to the bus for a message of topic [t] is
    forwarded under [t] when the bus reports it published, unless the
    report is flagged as entity state. *)
Theorem bridged_topic_round_trip this data ps t p :
  JSON_parse data = Some (JObj ps) →
  assoc "topic" ps = Some (JStr t) → assoc "payload" ps = Some p →
  ∃ topic payload,
    onMessage this data false = Ok [(topic, payload)] ∧
    forwarded this (MQTTMessagePublished topic payload false)
    = Some (JStr t, parseJSON payload payload) ∧
    forwarded this (MQTTMessagePublished topic payload true) = None.
Proof.
  intros Hparse Ht Hp. eexists _, _. split.
  - unfold onMessage. simpl. rewrite Hparse. unfold destructure.
    rewrite Ht, Hp. reflexivity.
  - unfold forwarded. simpl.
    rewrite <- append_assoc, prefix_append, append_assoc. simpl.
    by rewrite strip_base.
Qed.

(** ** Routing of HTTP requests *)

Lemma strip_common_extension (l r : list string) :
  Node.strip_common l (l ++ r)%list = ([], r).
Proof.
  induction l as [|x l IH]; simpl; [ by destruct r | ].
  by rewrite String.eqb_refl.
Qed.

Lemma strip_common_prefix (l1 l2 f t : list string) :
  Node.strip_common l1 l2 = (f, t) → f = [] → l2 = (l1 ++ t)%list.
Proof.
  revert l2. induction l1 as [|x l1 IH]; intros l2; simpl.
  - by intros [= <- <-] _.
  - destruct l2 as [|y l2]; [ by intros [= <- <-] | ].
    destruct (String.eqb x y) eqn:E; [ | by intros [= <- <-] ].
    apply String.eqb_eq in E as ->. intros H Hf. f_equal. by apply IH.
Qed.

Lemma relative_under_base (baseUrl url : string) (R : list string) :
  Node.segments url = (Node.segments baseUrl ++ R)%list →
  Node.posix_relative baseUrl url = join "/" R.
Proof.
  intros H. unfold Node.posix_relative.
  by rewrite H, strip_common_extension.
Qed.

Lemma join_head (x : string) (l : list string) :
  ∃ rest, join "/" (x :: l) = x ++ rest.
Proof.
  destruct l as [|y l]; simpl.
  - exists "". induction x as [|c x IH]; [ done | ].
    rewrite append_cons. by rewrite <- IH.
  - by eexists.
Qed.



(** A request whose path is not under the base URL is handed to the
    final handler, which answers that nothing was found. *)
Theorem request_outside_base_not_found baseUrl url :
  (∀ R, Node.segments url ≠ (Node.segments baseUrl ++ R)%list) →
  onRequest baseUrl url = NotFound.
Proof.
  intros Hout. unfold onRequest, Node.posix_relative.
  destruct (Node.strip_common (Node.segments baseUrl) (Node.segments url))
    as [f t] eqn:E.
  destruct f as [|x f].
  - destruct (Hout t). by eapply strip_common_prefix.
  - change (repeat ".." (length (x :: f)) ++ t)%list
      with (".." :: (repeat ".." (length f) ++ t))%list.
    destruct (join_head ".." (repeat ".." (length f) ++ t)%list)
      as [rest ->].
    reflexivity.
Qed.

(** A request whose target is an absolute path under the base URL, an
    absolute path itself, is served by the file server with its path
    rewritten relative to the base URL; the base URL itself is served
    as the root.  A remaining path that begins with a dot is
    not served: a dot file right under the base URL gets the final
    handler. *)
Theorem request_under_base_is_rewritten baseUrl url R :
  String.prefix "/" baseUrl = true →
  String.prefix "/" url = true →
  Node.segments url = (Node.segments baseUrl ++ R)%list →
  (R = [] → onRequest baseUrl url = FileServer "/" "/" url) ∧
  (∀ seg R', R = seg :: R' → String.prefix "." seg = true →
     onRequest baseUrl url = NotFound) ∧
  (String.prefix "." (join "/" R) = false →
   String.prefix "device_icons/" (join "/" R) = false →
   onRequest baseUrl url
   = FileServer ("/" ++ join "/" R) ("/" ++ join "/" R) url).
Proof.
  intros _ _ H. unfold onRequest. rewrite (relative_under_base _ _ _ H).
  split; [ | split ].
  - by intros ->.
  - intros seg R' -> Hdot. destruct (join_head seg R') as [rest ->].
    destruct seg as [|c seg]; [ done | ]. rewrite append_cons.
    rewrite prefix_cons in *.
    destruct (ascii_dec "." c); [ | done ]. by destruct (seg ++ rest).
  - by intros -> ->.
Qed.


(** ** The server [start] creates *)

(** The server is a TLS server exactly when both files are configured
    and exist; then nothing is logged.  Otherwise it is a plain server,
    with at most one error logged, and none at all when no key is
    configured: the certificate is looked at only after the key. *)
Theorem tls_needs_both_files existsSync sslKey sslCert :
  (∀ k c,
     fst (createServer existsSync sslKey sslCert) = SecureServer k c ↔
     sslKey = Some k ∧ sslCert = Some c ∧ k ≠ "" ∧ c ≠ "" ∧
     existsSync k = true ∧ existsSync c = true) ∧
  (fst (createServer existsSync sslKey sslCert) ≠ PlainServer →
   snd (createServer existsSync sslKey sslCert) = []) ∧
  (length (snd (createServer existsSync sslKey sslCert)) ≤ 1)%nat ∧
  (sslKey = None ∨ sslKey = Some "" →
   createServer existsSync sslKey sslCert = (PlainServer, [])).
Proof.
  unfold createServer, hasSSL.
  destruct sslKey as [[|a k]|], sslCert as [[|b c]|];
    try destruct (existsSync (String a k)) eqn:Ek;
    try destruct (existsSync (String b c)) eqn:Ec; simpl;
    (split; [ | split; [ done | split; [ lia | intros [?|?]; done ] ] ]);
    intros k0 c0; (split; [ intros [= <- <-] || done | ]);
    try (intros (? & ? & ? & ? & ? & ?); simplify_eq; congruence).
  all: repeat split; done.
Qed.

(** ** The properties on concrete requests and clients *)

Lemma retained_replay_strips_namespace_witness :
  replay_retained Examples.frontend
    ("zigbee2mqtt/bridge/state", bt "{`state`:`online`}")
  = [bt "{`payload`:{`state`:`online`},`topic`:`bridge/state`}"]
  ∧ replay_retained Examples.frontend ("zigbee2mqtt/lamp", "1.50")
    = [bt "{`payload`:1.5,`topic`:`lamp`}"]
  ∧ replay_retained Examples.frontend ("homeassistant/status", "online") = [].
Proof.
  destruct (retained_replay_strips_namespace Examples.frontend "bridge/state"
              (bt "{`state`:`online`}")) as (H1 & _ & _).
  destruct (retained_replay_strips_namespace Examples.frontend "lamp" "1.50")
    as (H2 & _ & _).
  split; [ | split; [ | reflexivity ] ].
  - change "zigbee2mqtt/bridge/state"
      with (mqttBaseTopic Examples.frontend ++ "/" ++ "bridge/state").
    rewrite H1. vm_compute. reflexivity.
  - change "zigbee2mqtt/lamp"
      with (mqttBaseTopic Examples.frontend ++ "/" ++ "lamp").
    rewrite H2. vm_compute. reflexivity.
Defined.

Lemma broadcast_only_to_open_clients_witness :
  ws_sent ∘ client_ws
    <$> onMQTTPublishMessageOrEntityState Examples.frontend
          (MQTTMessagePublished "zigbee2mqtt/lamp/availability" "online" false)
          Examples.clients
  = [ ["hello"; bt "{`payload`:`online`,`topic`:`lamp/availability`}"];
      [];
      [bt "{`payload`:`online`,`topic`:`lamp/availability`}"] ]
  ∧ onMQTTPublishMessageOrEntityState Examples.frontend
      (MQTTMessagePublished "zigbee2mqtt/lamp" (bt "{`state`:`ON`}") true)
      Examples.clients
    = Examples.clients
  ∧ length (onMQTTPublishMessageOrEntityState Examples.frontend
              (PublishEntityState "lamp" [("state", JStr "ON")])
              Examples.clients) = 3%nat.
Proof.
  split; [ vm_compute; reflexivity | ]. split; [ vm_compute; reflexivity | ].
  destruct (broadcast_only_to_open_clients Examples.frontend
              (PublishEntityState "lamp" [("state", JStr "ON")])
              Examples.clients) as [-> _].
  reflexivity.
Defined.

Lemma bridged_topic_round_trip_witness :
  JSON_parse (bt "{`topic`: `lamp/set`, `payload`: {`state`: `ON`}}")
  = Some (JObj [("topic", JStr "lamp/set");
                ("payload", JObj [("state", JStr "ON")])])
  ∧ ∃ topic payload,
      onMessage Examples.frontend
        (bt "{`topic`: `lamp/set`, `payload`: {`state`: `ON`}}") false
      = Ok [(topic, payload)]
      ∧ topic = "zigbee2mqtt/lamp/set"
      ∧ forwarded Examples.frontend (MQTTMessagePublished topic payload false)
        = Some (JStr "lamp/set", parseJSON payload payload).
Proof.
  assert (H : JSON_parse (bt "{`topic`: `lamp/set`, `payload`: {`state`: `ON`}}")
              = Some (JObj [("topic", JStr "lamp/set");
                            ("payload", JObj [("state", JStr "ON")])]))
    by (vm_compute; reflexivity).
  split; [ exact H | ].
  destruct (bridged_topic_round_trip Examples.frontend _ _ "lamp/set" _ H
              eq_refl eq_refl) as (topic & payload & Hm & Hf & _).
  exists topic, payload. split; [ exact Hm | ]. split; [ | exact Hf ].
  vm_compute in Hm. injection Hm as <- _. reflexivity.
Defined.

Lemma request_outside_base_not_found_witness :
  (∀ R, Node.segments "/other/index.html" ≠ (Node.segments "/z2m" ++ R)%list)
  ∧ onRequest "/z2m" "/other/index.html" = NotFound
  ∧ onRequest "/z2m" "/z2m/../etc/passwd" = NotFound.
Proof.
  assert (H1 : ∀ R, Node.segments "/other/index.html"
                    ≠ (Node.segments "/z2m" ++ R)%list).
  { intros R H. vm_compute in H. discriminate H. }
  assert (H2 : ∀ R, Node.segments "/z2m/../etc/passwd"
                    ≠ (Node.segments "/z2m" ++ R)%list).
  { intros R H. vm_compute in H. discriminate H. }
  split; [ exact H1 | ].
  split; [ exact (request_outside_base_not_found _ _ H1)
         | exact (request_outside_base_not_found _ _ H2) ].
Defined.

Lemma request_under_base_is_rewritten_witness :
  String.prefix "/" "/z2m" = true
  ∧ String.prefix "/" "/z2m//assets/./index.js?v=1" = true
  ∧ Node.segments "/z2m//assets/./index.js?v=1"
    = (Node.segments "/z2m" ++ ["assets"; "index.js?v=1"])%list
  ∧ onRequest "/z2m" "/z2m//assets/./index.js?v=1"
    = FileServer "/assets/index.js?v=1" "/assets/index.js?v=1"
        "/z2m//assets/./index.js?v=1"
  ∧ Node.segments "/z2m/.env" = (Node.segments "/z2m" ++ [".env"])%list
  ∧ onRequest "/z2m" "/z2m/.env" = NotFound
  ∧ onRequest "/" "/" = FileServer "/" "/" "/".
Proof.
  assert (H1 : Node.segments "/z2m//assets/./index.js?v=1"
               = (Node.segments "/z2m" ++ ["assets"; "index.js?v=1"])%list)
    by (vm_compute; reflexivity).
  assert (H2 : Node.segments "/z2m/.env"
               = (Node.segments "/z2m" ++ [".env"])%list)
    by (vm_compute; reflexivity).
  assert (H3 : Node.segments "/" = (Node.segments "/" ++ [])%list)
    by (vm_compute; reflexivity).
  destruct (request_under_base_is_rewritten "/z2m" "/z2m//assets/./index.js?v=1"
              _ eq_refl eq_refl H1) as (_ & _ & Hin).
  destruct (request_under_base_is_rewritten "/z2m" "/z2m/.env"
              _ eq_refl eq_refl H2) as (_ & Hdot & _).
  destruct (request_under_base_is_rewritten "/" "/"
              _ eq_refl eq_refl H3) as (Hroot & _ & _).
  split; [ reflexivity | ]. split; [ reflexivity | ].
  split; [ exact H1 | ].
  split; [ exact (Hin eq_refl eq_refl) | ].
  split; [ exact H2 | ].
  split; [ exact (Hdot ".env" [] eq_refl eq_refl) | exact (Hroot eq_refl) ].
Defined.


Lemma tls_needs_both_files_witness :
  createServer Examples.key_only (Some "/ssl/key.pem") (Some "/ssl/cert.pem")
  = (PlainServer,
     ["Defined ssl_cert '/ssl/cert.pem' file path does not exists, server won't be secured."])
  ∧ createServer Examples.key_only None (Some "/ssl/cert.pem")
    = (PlainServer, [])
  ∧ ∀ k c,
      fst (createServer Examples.key_only (Some "/ssl/key.pem")
             (Some "/ssl/cert.pem")) ≠ SecureServer k c.
Proof.
  split; [ reflexivity | ].
  destruct (tls_needs_both_files Examples.key_only None (Some "/ssl/cert.pem"))
    as (_ & _ & _ & H0).
  split; [ apply H0; by left | ].
  destruct (tls_needs_both_files Examples.key_only (Some "/ssl/key.pem")
              (Some "/ssl/cert.pem")) as (H1 & _).
  intros k c Hs. apply H1 in Hs as (_ & [= <-] & _ & _ & _ & Hc).
  vm_compute in Hc. discriminate Hc.
Defined.

End FrontendGateway.
